(** * whatdis.binary_features: data-quality checks for binary columns

    A shallow embedding of [src/whatdis/binary_features.py] and the
    properties its specification states about it.

    - pandas objects: a [Series] is a typed column, a [DataFrame] an ordered
      list of named columns; the argument [data] of every function is one
      or the other ([Data]).
    - NumPy scalars: integers are [Z]; a float64 is a [spec_float] of the
      Standard Library's bit-level IEEE 754 specification, taken at
      precision 53 and maximal exponent 1024, so that [>=], [<=], [-] and
      [/] round and treat NaN as Python's floats do.
    - exceptions and evaluation order: a small monad [M] that carries the
      raised exception and the list of calls made on [data] so far. *)

From Stdlib Require Import ZArith List String Bool Lia Permutation.
From Stdlib Require Import Floats.SpecFloat.
Import ListNotations.
Local Open Scope string_scope.
Local Open Scope list_scope.
Local Open Scope Z_scope.

(** ** NumPy dtypes *)

Module Np.

Inductive dtype : Type :=
| bool_
| int8 | int16 | int32 | int64
| uint8 | uint16 | uint32 | uint64
| float32 | float64
| object_.

Definition dtype_eqb (a b : dtype) : bool :=
  match a, b with
  | bool_, bool_ | int8, int8 | int16, int16 | int32, int32 | int64, int64
  | uint8, uint8 | uint16, uint16 | uint32, uint32 | uint64, uint64
  | float32, float32 | float64, float64 | object_, object_ => true
  | _, _ => false
  end.

(** [np.dtype(bool)]. *)
Definition dtype_bool : dtype := bool_.

(** [np.dtype(int)]: NumPy's default integer, the 64-bit signed one (the
    error message of [validate_binary_dtype] names it). *)
Definition dtype_int : dtype := int64.

(** The dtype is one of NumPy's integer kinds, of any width or signedness. *)
Definition is_integer (d : dtype) : bool :=
  match d with
  | int8 | int16 | int32 | int64 | uint8 | uint16 | uint32 | uint64 => true
  | _ => false
  end.

Definition is_floating (d : dtype) : bool :=
  match d with float32 | float64 => true | _ => false end.

(** [d in types] on a tuple of dtypes. *)
Definition isin (types : list dtype) (d : dtype) : bool :=
  existsb (dtype_eqb d) types.

End Np.

(** ** float64 *)

Module F64.

Definition prec : Z := 53.
Definition emax : Z := 1024.

Definition t : Type := spec_float.

Definition nan : t := S754_nan.
Definition zero : t := S754_zero false.

(** Conversion of an integer, rounding to nearest even. *)
Definition of_Z (z : Z) : t := binary_normalize prec emax z 0 false.

Definition one : t := of_Z 1.

Definition sub (x y : t) : t := SFsub prec emax x y.
Definition div (x y : t) : t := SFdiv prec emax x y.

(** [x <= y], [x < y] and [x >= y] of Python floats: false on NaN. *)
Definition leb (x y : t) : bool := SFleb x y.
Definition ltb (x y : t) : bool := SFltb x y.
Definition geb (x y : t) : bool := SFleb y x.

(** The float64 nearest to the decimal [n / 10^k], as Python reads the
    literal: the correctly rounded quotient of two exact integers. *)
Definition decimal (n : Z) (k : nat) : t := div (of_Z n) (of_Z (10 ^ Z.of_nat k)).

Definition half : t := decimal 5 1.

(** The value is a float64: NaN, an infinity, a zero, or a finite number
    whose mantissa and exponent are the ones of its binary64 encoding. *)
Definition valid (x : t) : bool := valid_binary prec emax x.

(** [x] is not NaN and has sign bit [sx]. *)
Definition signed (sx : bool) (x : t) : Prop :=
  match x with
  | S754_zero s | S754_infinity s | S754_finite s _ _ => s = sx
  | S754_nan => False
  end.

End F64.

Local Abbreviation fexp64 := (fexp 53 1024).

(** ** pandas objects *)

Inductive int_kind : Type := I8 | I16 | I32 | I64 | U8 | U16 | U32 | U64.
Inductive float_kind : Type := F32 | F64k.

(** A column with the element type pandas stores it under. *)
Inductive Series : Type :=
| BoolSeries (vals : list bool)
| IntSeries (k : int_kind) (vals : list Z)
| FloatSeries (k : float_kind) (vals : list F64.t)
| ObjectSeries (vals : list string).

Definition int_dtype (k : int_kind) : Np.dtype :=
  match k with
  | I8 => Np.int8 | I16 => Np.int16 | I32 => Np.int32 | I64 => Np.int64
  | U8 => Np.uint8 | U16 => Np.uint16 | U32 => Np.uint32 | U64 => Np.uint64
  end.

Definition float_dtype (k : float_kind) : Np.dtype :=
  match k with F32 => Np.float32 | F64k => Np.float64 end.

(** [Series.dtypes]. *)
Definition dtypes (s : Series) : Np.dtype :=
  match s with
  | BoolSeries _ => Np.bool_
  | IntSeries k _ => int_dtype k
  | FloatSeries k _ => float_dtype k
  | ObjectSeries _ => Np.object_
  end.

(** Number of rows. *)
Definition size (s : Series) : nat :=
  match s with
  | BoolSeries l => List.length l
  | IntSeries _ l => List.length l
  | FloatSeries _ l => List.length l
  | ObjectSeries l => List.length l
  end.

(** A table: its columns in order, each under its name. *)
Definition DataFrame : Type := list (string * Series).

(** [Union[pd.DataFrame, pd.Series]]. *)
Inductive Data : Type :=
| Frame (df : DataFrame)
| Column (s : Series).

(** The integers a reduction works on: [False] and [True] count as 0 and 1.
    Reductions over float and object columns are not part of this model;
    no check reaches them (see [validated_numeric]). *)
Definition numeric (s : Series) : list Z :=
  match s with
  | BoolSeries l => map Z.b2z l
  | IntSeries _ l => l
  | FloatSeries _ _ => []
  | ObjectSeries _ => []
  end.

(** ** Exceptions, and the calls made on [data] *)

Inductive exn : Type :=
| TypeError (msg : string)
| ValueError.

(** The attribute reads and reductions pandas is asked for. *)
Inductive call : Type := GetDtypes | Min | Max | Mean.

Definition call_eqb (a b : call) : bool :=
  match a, b with
  | GetDtypes, GetDtypes | Min, Min | Max, Max | Mean, Mean => true
  | _, _ => false
  end.


Inductive outcome (A : Type) : Type :=
| Return (a : A)
| Raise (e : exn).
Arguments Return {A} a.
Arguments Raise {A} e.

(** A computation: the calls it made, in order, and how it ended. *)
Definition M (A : Type) : Type := list call * outcome A.

Definition ret {A} (a : A) : M A := ([], Return a).
Definition raise {A} (e : exn) : M A := ([], Raise e).
Definition tell (c : call) : M unit := ([c], Return tt).

Definition bind {A B} (m : M A) (f : A -> M B) : M B :=
  match m with
  | (tr, Return a) => let (tr', r) := f a in (tr ++ tr', r)
  | (tr, Raise e) => (tr, Raise e)
  end.

Definition trace {A} (m : M A) : list call := fst m.
Definition result {A} (m : M A) : outcome A := snd m.

Declare Scope py_scope.
Delimit Scope py_scope with py.
Notation "x <- m ;; k" := (bind m (fun x => k))
  (at level 61, m at next level, right associativity) : py_scope.
Notation "m ;; k" := (bind m (fun _ => k))
  (at level 61, right associativity) : py_scope.
Local Open Scope py_scope.

(** ** Reductions and element-wise operations of pandas *)

(** A result that is one value for a column and one value per column name
    for a table. *)
Inductive shaped (A : Type) : Type :=
| Scalar (a : A)
| Indexed (l : list (string * A)).
Arguments Scalar {A} a.
Arguments Indexed {A} l.

(** The minimum of a column; [None] is the NaN pandas answers on no rows. *)
Definition list_min (l : list Z) : option Z :=
  match l with
  | [] => None
  | x :: r => Some (fold_left Z.min r x)
  end.

Definition list_max (l : list Z) : option Z :=
  match l with
  | [] => None
  | x :: r => Some (fold_left Z.max r x)
  end.

Definition list_sum (l : list Z) : Z := fold_left Z.add l 0.

(** The mean of a column, as pandas takes it: the sum of the values over the
    count of rows, both as float64, and NaN on no rows. The sum is the exact
    one, rounded once; pandas adds a bool column up in int64 and an int64
    column up in float64, which is the same number as long as the partial
    sums stay below 2^53 in magnitude, as they do on any column of zeros and
    ones. *)
Definition list_mean (l : list Z) : F64.t :=
  match l with
  | [] => F64.nan
  | _ :: _ => F64.div (F64.of_Z (list_sum l)) (F64.of_Z (Z.of_nat (List.length l)))
  end.

(** [==], [<] and [>] on a possibly-NaN minimum or maximum: false on NaN. *)
Definition nan_eqb (a b : option Z) : bool :=
  match a, b with
  | Some x, Some y => x =? y
  | _, _ => false
  end.

Definition nan_ltb (a b : option Z) : bool :=
  match a, b with
  | Some x, Some y => x <? y
  | _, _ => false
  end.

Definition nan_gtb (a b : option Z) : bool := nan_ltb b a.

(** [f] applied to every entry of a labelled result. *)
Definition each {A B} (f : A -> B) (l : list (string * A)) : list (string * B) :=
  map (fun p => (fst p, f (snd p))) l.

(** Two labelled results of one table combined entry by entry. *)
Fixpoint each2 {A B C} (f : A -> B -> C) (l : list (string * A))
    (r : list (string * B)) : list (string * C) :=
  match l, r with
  | (n, a) :: l', (_, b) :: r' => (n, f a b) :: each2 f l' r'
  | _, _ => []
  end.

(** [Series.min()], [Series.max()], [Series.mean()]. *)
Definition Series_min (s : Series) : M (option Z) :=
  tell Min ;; ret (list_min (numeric s)).

Definition Series_max (s : Series) : M (option Z) :=
  tell Max ;; ret (list_max (numeric s)).

Definition Series_mean (s : Series) : M F64.t :=
  tell Mean ;; ret (list_mean (numeric s)).

(** [DataFrame.min(axis=0)], [DataFrame.max(axis=0)],
    [DataFrame.mean(axis=0)]: one value per column. *)
Definition DataFrame_min (df : DataFrame) : M (list (string * option Z)) :=
  tell Min ;; ret (each (fun s => list_min (numeric s)) df).

Definition DataFrame_max (df : DataFrame) : M (list (string * option Z)) :=
  tell Max ;; ret (each (fun s => list_max (numeric s)) df).

Definition DataFrame_mean (df : DataFrame) : M (list (string * F64.t)) :=
  tell Mean ;; ret (each (fun s => list_mean (numeric s)) df).

(** [Series.dtypes] and [DataFrame.dtypes]. *)
Definition Series_dtypes (s : Series) : M Np.dtype :=
  tell GetDtypes ;; ret (dtypes s).

Definition DataFrame_dtypes (df : DataFrame) : M (list (string * Np.dtype)) :=
  tell GetDtypes ;; ret (each dtypes df).

(** ** whatdis.utils *)

Module utils.

(** Modelled from the spec: [utils.check_if_df], whose source is not part of
    the files at hand; it "distinguishes table-shaped input from
    single-column input". *)
Definition check_if_df (data : Data) : bool :=
  match data with
  | Frame _ => true
  | Column _ => false
  end.

(** Modelled from the spec: [utils.validate_thresh], whose source is not
    part of the files at hand; it fails "with a ValueError-kind error if the
    threshold is <= 0.0 or >= 1.0". *)
Definition validate_thresh (thresh : F64.t) : M unit :=
  if F64.leb thresh F64.zero || F64.geb thresh F64.one
  then raise ValueError
  else ret tt.

(** The report of a check: the outcome under its title, and the named
    statistics that go with it. *)
Record Report : Type := {
  title : string;
  outcome_field : shaped bool;
  extra_fields : list (string * shaped F64.t)
}.

(** Modelled from the spec: [utils.result_to_df], whose source is not part
    of the files at hand; it "normalizes a raw per-column (or scalar) result
    plus any extra named fields into the uniform report shape, using title
    as the outcome field's name", the result being "a scalar outcome when
    data is a single column" and "a per-column report (mapping column name
    to outcome)" when it is a table. *)
Definition result_to_df (data : shaped bool) (title : string)
    (extra : list (string * shaped F64.t)) : M Report :=
  ret {| title := title; outcome_field := data; extra_fields := extra |}.

End utils.

(** ** whatdis.binary_features *)

Definition err_message : string :=
  "Binary feature columns should be of type bool or int64.".

Definition types : list Np.dtype := [Np.dtype_bool; Np.dtype_int].

Definition validate_binary_dtype (data : Data) : M unit :=
  match data with
  | Frame df =>                                   (* is_df *)
      dts <- DataFrame_dtypes df ;;
      if negb (forallb (fun p => Np.isin types (snd p)) dts)
      then raise (TypeError err_message)
      else ret tt
  | Column s =>
      dt <- Series_dtypes s ;;
      if negb (Np.isin types dt)
      then raise (TypeError err_message)
      else ret tt
  end.

Definition check_all_same (data : Data) : M utils.Report :=
  validate_binary_dtype data ;;
  let title := "all_same" in
  match data with
  | Frame df =>                                   (* is_df *)
      lo <- DataFrame_min df ;;
      hi <- DataFrame_max df ;;
      utils.result_to_df (Indexed (each2 nan_eqb lo hi)) title []
  | Column s =>
      lo <- Series_min s ;;
      hi <- Series_max s ;;
      utils.result_to_df (Scalar (nan_eqb lo hi)) title []
  end.

Definition check_mostly_same (data : Data) (thresh : F64.t) : M utils.Report :=
  utils.validate_thresh thresh ;;
  validate_binary_dtype data ;;
  let title := "mostly_same" in
  match data with
  | Frame df =>                                   (* is_df *)
      mean <- DataFrame_mean df ;;
      let result :=
        each2 orb (each (fun m => F64.geb m thresh) mean)
                  (each (fun m => F64.leb m (F64.sub F64.one thresh)) mean) in
      utils.result_to_df (Indexed result) title
        [("thresh", Scalar thresh); ("mean", Indexed mean)]
  | Column s =>
      mean <- Series_mean s ;;
      let result := F64.geb mean thresh || F64.leb mean (F64.sub F64.one thresh) in
      utils.result_to_df (Scalar result) title
        [("thresh", Scalar thresh); ("mean", Scalar mean)]
  end.

(** The default of [thresh]: the literal [0.95]. *)
Definition default_thresh : F64.t := F64.decimal 95 2.

Definition check_outside_range (data : Data) : M utils.Report :=
  validate_binary_dtype data ;;
  let title := "outside_range" in
  match data with
  | Frame df =>                                   (* is_df *)
      lo <- DataFrame_min df ;;
      hi <- DataFrame_max df ;;
      let result :=
        each2 orb (each (fun m => nan_ltb m (Some 0)) lo)
                  (each (fun m => nan_gtb m (Some 1)) hi) in
      utils.result_to_df (Indexed result) title []
  | Column s =>
      lo <- Series_min s ;;
      hi <- Series_max s ;;
      utils.result_to_df (Scalar (nan_ltb lo (Some 0) || nan_gtb hi (Some 1))) title []
  end.

(** ** Vocabulary of the properties *)

(** The columns of the input, in order. *)
Definition columns (data : Data) : list Series :=
  match data with
  | Frame df => map snd df
  | Column s => [s]
  end.

(** The column names of the input; a single column goes without. *)
Definition column_names (data : Data) : list string :=
  match data with
  | Frame df => map fst df
  | Column _ => []
  end.

(** The values of a result, in order. *)
Definition values {A} (r : shaped A) : list A :=
  match r with
  | Scalar a => [a]
  | Indexed l => map snd l
  end.

(** The labels of a result; a scalar has none. *)
Definition labels {A} (r : shaped A) : list string :=
  match r with
  | Scalar _ => []
  | Indexed l => map fst l
  end.

Definition is_scalar {A} (r : shaped A) : bool :=
  match r with Scalar _ => true | Indexed _ => false end.

(** The value a report carries under the name of an extra field. *)
Fixpoint field (name : string) (fs : list (string * shaped F64.t))
    : option (shaped F64.t) :=
  match fs with
  | [] => None
  | (n, v) :: r => if String.eqb n name then Some v else field name r
  end.

(** The dtype validation passes: every column is of a dtype in [types]. *)
Definition binary_dtype (s : Series) : bool := Np.isin types (dtypes s).

Definition validated (data : Data) : bool := forallb binary_dtype (columns data).

(** The element type is bool or one of the integer kinds. *)
Definition bool_or_integer (s : Series) : bool :=
  Np.dtype_eqb (dtypes s) Np.bool_ || Np.is_integer (dtypes s).

(** The values are 64-bit signed integers, and the rows can be counted
    by one. *)
Definition int64_bounded (l : list Z) : bool :=
  (Z.of_nat (List.length l) <? 2 ^ 63) &&
  forallb (fun z => (- 2 ^ 63 <=? z) && (z <? 2 ^ 63)) l.

Definition well_formed (data : Data) : bool :=
  forallb (fun s => int64_bounded (numeric s)) (columns data).

(** Every column has a row. *)
Definition nonempty (data : Data) : bool :=
  forallb (fun s => negb (Nat.eqb (size s) 0)) (columns data).

(** The threshold is a number strictly between 0 and 1. *)
Definition valid_thresh (thresh : F64.t) : bool :=
  F64.ltb F64.zero thresh && F64.ltb thresh F64.one.

(** [m] is the least, resp. greatest, value of [l]. *)
Definition is_minimum (l : list Z) (m : Z) : Prop :=
  In m l /\ forall x, In x l -> m <= x.

Definition is_maximum (l : list Z) (m : Z) : Prop :=
  In m l /\ forall x, In x l -> x <= m.

(** One value per column of the input, in the shape of the input. *)
Definition per_column {A} (f : Series -> A) (data : Data) : shaped A :=
  match data with
  | Frame df => Indexed (each f df)
  | Column s => Scalar (f s)
  end.

(** What the three checks decide on one column. *)
Definition all_same (s : Series) : bool :=
  nan_eqb (list_min (numeric s)) (list_max (numeric s)).

Definition outside_range (s : Series) : bool :=
  nan_ltb (list_min (numeric s)) (Some 0) || nan_gtb (list_max (numeric s)) (Some 1).

Definition mean (s : Series) : F64.t := list_mean (numeric s).

Definition mostly_same (thresh : F64.t) (s : Series) : bool :=
  F64.geb (mean s) thresh || F64.leb (mean s) (F64.sub F64.one thresh).


(** The computation returns a report in the shape of the input: a scalar
    for a column, one entry per column name for a table. *)
Definition mirrors_input (data : Data) (m : M utils.Report) : Prop :=
  exists report,
    result m = Return report /\
    is_scalar (utils.outcome_field report) = negb (utils.check_if_df data) /\
    labels (utils.outcome_field report) = column_names data /\
    List.length (values (utils.outcome_field report)) = List.length (columns data).


(** The outcomes of a check, column by column, when it returns. *)
Definition outcomes (m : M utils.Report) : option (list bool) :=
  match result m with
  | Return report => Some (values (utils.outcome_field report))
  | Raise _ => None
  end.


(** A column of [k] ones followed by [n] zeros. *)
Definition ones_zeros (k n : nat) : list Z := repeat 1 k ++ repeat 0 n.

(** ** Vocabulary of the further properties *)

(** Every value is 0 or 1. *)
Definition zeros_and_ones (l : list Z) : bool :=
  forallb (fun z => (z =? 0) || (z =? 1)) l.

(** The means a report of [check_mostly_same] carries, column by column. *)
Definition means (m : M utils.Report) : option (list F64.t) :=
  match result m with
  | Return report => option_map values (field "mean" (utils.extra_fields report))
  | Raise _ => None
  end.

(** [m / 2^k] rounded to the nearest integer, ties to even. *)
Definition rne (m k : Z) : Z :=
  if k <=? 0 then m
  else
    let q := m / 2 ^ k in
    match (m mod 2 ^ k) ?= 2 ^ (k - 1) with
    | Lt => q
    | Eq => if Z.even q then q else q + 1
    | Gt => q + 1
    end.

(** A positive integer [p] of [d] binary digits brought to a mantissa of 53
    digits: scaled up exactly, or shifted down and rounded. *)
Definition round_mantissa (p d : Z) : Z :=
  if d <? 53 then p * 2 ^ (53 - d) else rne p (d - 53).

(** The float64 nearest to [p * 2^ex], for [p] of [d] binary digits, when
    it is a normal number. *)
Definition rounded (sx : bool) (p d ex : Z) : spec_float :=
  let m := round_mantissa p d in
  if m <? 2 ^ 53
  then S754_finite sx (Z.to_pos m) (ex + d - 53)
  else S754_finite sx (Z.to_pos (2 ^ 52)) (ex + d - 52).

(** * Properties *)

(** ** The monad *)


(** ** Labelled results *)

Lemma each2_each {A B C D} (f : B -> C -> D) (g : A -> B) (h : A -> C)
    (l : list (string * A)) :
  each2 f (each g l) (each h l) = each (fun a => f (g a) (h a)) l.
Proof.
  induction l as [| [n a] l IH]; simpl; [reflexivity | now rewrite IH].
Qed.

Lemma each_each {A B C} (f : B -> C) (g : A -> B) (l : list (string * A)) :
  each f (each g l) = each (fun a => f (g a)) l.
Proof.
  induction l as [| [n a] l IH]; simpl; [reflexivity | now rewrite IH].
Qed.

Lemma each_fst {A B} (f : A -> B) (l : list (string * A)) :
  map fst (each f l) = map fst l.
Proof. unfold each. rewrite map_map. reflexivity. Qed.

Lemma each_snd {A B} (f : A -> B) (l : list (string * A)) :
  map snd (each f l) = map f (map snd l).
Proof. unfold each. rewrite !map_map. reflexivity. Qed.

Lemma Forall2_map_same {A B} (P : A -> B -> Prop) (f : A -> B) (l : list A) :
  (forall a, In a l -> P a (f a)) -> Forall2 P l (map f l).
Proof.
  induction l as [| a l IH]; simpl; intros H; constructor.
  - apply H. now left.
  - apply IH. intros b Hb. apply H. now right.
Qed.

(** ** Minimum and maximum *)

Lemma fold_min_spec (l : list Z) (x : Z) :
  is_minimum (x :: l) (fold_left Z.min l x).
Proof.
  revert x. induction l as [| y l IH]; intros x; simpl.
  - split; [now left |]. intros z [<- | []]. lia.
  - destruct (IH (Z.min x y)) as [Hin Hle]. split.
    + destruct Hin as [Heq | Hin]; [| now right; right].
      rewrite <- Heq. destruct (Z.min_spec x y) as [[_ ->] | [_ ->]];
        [now left | now right; left].
    + intros z [<- | [<- | Hz]].
      * etransitivity; [apply Hle; now left | lia].
      * etransitivity; [apply Hle; now left | lia].
      * apply Hle. now right.
Qed.

Lemma fold_max_spec (l : list Z) (x : Z) :
  is_maximum (x :: l) (fold_left Z.max l x).
Proof.
  revert x. induction l as [| y l IH]; intros x; simpl.
  - split; [now left |]. intros z [<- | []]. lia.
  - destruct (IH (Z.max x y)) as [Hin Hle]. split.
    + destruct Hin as [Heq | Hin]; [| now right; right].
      rewrite <- Heq. destruct (Z.max_spec x y) as [[_ ->] | [_ ->]];
        [now right; left | now left].
    + intros z [<- | [<- | Hz]].
      * etransitivity; [| apply Hle; now left]. lia.
      * etransitivity; [| apply Hle; now left]. lia.
      * apply Hle. now right.
Qed.

Lemma is_minimum_unique (l : list Z) (a b : Z) :
  is_minimum l a -> is_minimum l b -> a = b.
Proof. intros [Ha Hla] [Hb Hlb]. apply Z.le_antisymm; auto. Qed.

Lemma is_maximum_unique (l : list Z) (a b : Z) :
  is_maximum l a -> is_maximum l b -> a = b.
Proof. intros [Ha Hla] [Hb Hlb]. apply Z.le_antisymm; auto. Qed.

Lemma list_min_spec (l : list Z) (m : Z) :
  list_min l = Some m <-> is_minimum l m.
Proof.
  destruct l as [| x l]; simpl.
  - split; [discriminate | intros [[] _]].
  - split.
    + intros [= <-]. apply fold_min_spec.
    + intros H. f_equal. eapply is_minimum_unique; [apply fold_min_spec | exact H].
Qed.

Lemma list_max_spec (l : list Z) (m : Z) :
  list_max l = Some m <-> is_maximum l m.
Proof.
  destruct l as [| x l]; simpl.
  - split; [discriminate | intros [[] _]].
  - split.
    + intros [= <-]. apply fold_max_spec.
    + intros H. f_equal. eapply is_maximum_unique; [apply fold_max_spec | exact H].
Qed.

Lemma nan_eqb_spec (l : list Z) :
  nan_eqb (list_min l) (list_max l) = true <->
  exists lo hi, is_minimum l lo /\ is_maximum l hi /\ lo = hi.
Proof.
  split.
  - destruct (list_min l) as [lo |] eqn:Hlo, (list_max l) as [hi |] eqn:Hhi;
      simpl; try discriminate.
    intros H. apply Z.eqb_eq in H. exists lo, hi.
    rewrite <- list_min_spec, <- list_max_spec. auto.
  - intros (lo & hi & Hlo & Hhi & ->).
    apply list_min_spec in Hlo. apply list_max_spec in Hhi.
    rewrite Hlo, Hhi. simpl. apply Z.eqb_refl.
Qed.

Lemma outside_spec (l : list Z) :
  nan_ltb (list_min l) (Some 0) || nan_gtb (list_max l) (Some 1) = true <->
  (exists lo, is_minimum l lo /\ lo < 0) \/ (exists hi, is_maximum l hi /\ hi > 1).
Proof.
  rewrite orb_true_iff. unfold nan_gtb. split.
  - intros [H | H]; [left | right].
    + destruct (list_min l) as [lo |] eqn:Hlo; simpl in H; [| discriminate].
      exists lo. rewrite <- list_min_spec. split; [assumption | lia].
    + destruct (list_max l) as [hi |] eqn:Hhi; simpl in H; [| discriminate].
      exists hi. rewrite <- list_max_spec. split; [assumption | lia].
  - intros [(lo & Hlo & H) | (hi & Hhi & H)]; [left | right].
    + apply list_min_spec in Hlo. rewrite Hlo. simpl. lia.
    + apply list_max_spec in Hhi. rewrite Hhi. simpl. lia.
Qed.

(** ** The dtype validation *)

Lemma isin_types (d : Np.dtype) :
  Np.isin types d = true <-> d = Np.bool_ \/ d = Np.int64.
Proof.
  unfold Np.isin, types, Np.dtype_bool, Np.dtype_int. simpl.
  destruct d; simpl; split; intros H; try discriminate; auto;
    destruct H as [H | H]; discriminate.
Qed.

Lemma each_dtypes_forallb (df : DataFrame) :
  forallb (fun p => Np.isin types (snd p)) (each dtypes df) =
  forallb binary_dtype (map snd df).
Proof.
  induction df as [| [n s] df IH]; [reflexivity |].
  cbn [each map forallb fst snd]. fold (each dtypes df). now rewrite IH.
Qed.

Lemma validate_binary_dtype_run (data : Data) :
  validate_binary_dtype data =
  ([GetDtypes],
   if validated data then Return tt else Raise (TypeError err_message)).
Proof.
  destruct data as [df | s];
    unfold validate_binary_dtype, validated, DataFrame_dtypes, Series_dtypes, tell;
    cbn [bind ret columns app].
  - rewrite each_dtypes_forallb.
    destruct (forallb binary_dtype (map snd df)); reflexivity.
  - cbn [forallb]. unfold binary_dtype. rewrite andb_true_r.
    destruct (Np.isin types (dtypes s)); reflexivity.
Qed.

Lemma validated_false_iff (data : Data) :
  validated data = false <->
  exists s, In s (columns data) /\ binary_dtype s = false.
Proof.
  unfold validated. split.
  - intros H. induction (columns data) as [| s l IH]; simpl in *; [discriminate |].
    destruct (binary_dtype s) eqn:Hs.
    + destruct (IH H) as (s' & Hin & Hs'). exists s'. auto.
    + exists s. auto.
  - intros (s & Hin & Hs).
    destruct (forallb binary_dtype (columns data)) eqn:H; [| reflexivity].
    rewrite forallb_forall in H. rewrite (H s Hin) in Hs. discriminate.
Qed.


(** After validation, a column is one of booleans or of 64-bit integers: the
    reductions see all of its values. *)
Lemma validated_numeric (s : Series) :
  binary_dtype s = true ->
  (exists l, s = BoolSeries l) \/ (exists l, s = IntSeries I64 l).
Proof.
  unfold binary_dtype. intros H. apply isin_types in H.
  destruct s as [l | k l | k l | l]; simpl in H.
  - left. now exists l.
  - right. exists l. destruct k; destruct H as [H | H]; try discriminate. reflexivity.
  - destruct k; destruct H as [H | H]; discriminate.
  - destruct H as [H | H]; discriminate.
Qed.

(** ** The checks, run *)

Lemma per_column_values {A} (f : Series -> A) (data : Data) :
  values (per_column f data) = map f (columns data).
Proof. destruct data as [df | s]; simpl; [apply each_snd | reflexivity]. Qed.

Lemma per_column_labels {A} (f : Series -> A) (data : Data) :
  labels (per_column f data) = column_names data.
Proof. destruct data as [df | s]; simpl; [apply each_fst | reflexivity]. Qed.

Lemma per_column_is_scalar {A} (f : Series -> A) (data : Data) :
  is_scalar (per_column f data) = negb (utils.check_if_df data).
Proof. destruct data; reflexivity. Qed.

Lemma check_all_same_run (data : Data) :
  check_all_same data =
  if validated data
  then ([GetDtypes; Min; Max],
        Return {| utils.title := "all_same";
                  utils.outcome_field := per_column all_same data;
                  utils.extra_fields := [] |})
  else ([GetDtypes], Raise (TypeError err_message)).
Proof.
  unfold check_all_same. rewrite validate_binary_dtype_run.
  destruct (validated data); [| reflexivity].
  destruct data as [df | s]; cbn -[each each2 nan_eqb list_min list_max].
  - rewrite each2_each. reflexivity.
  - reflexivity.
Qed.

Lemma check_outside_range_run (data : Data) :
  check_outside_range data =
  if validated data
  then ([GetDtypes; Min; Max],
        Return {| utils.title := "outside_range";
                  utils.outcome_field := per_column outside_range data;
                  utils.extra_fields := [] |})
  else ([GetDtypes], Raise (TypeError err_message)).
Proof.
  unfold check_outside_range. rewrite validate_binary_dtype_run.
  destruct (validated data); [| reflexivity].
  destruct data as [df | s]; cbn -[each each2 nan_ltb nan_gtb list_min list_max].
  - rewrite !each_each, each2_each. reflexivity.
  - reflexivity.
Qed.

Lemma validate_thresh_run (thresh : F64.t) :
  utils.validate_thresh thresh =
  ([], if F64.leb thresh F64.zero || F64.geb thresh F64.one
       then Raise ValueError else Return tt).
Proof.
  unfold utils.validate_thresh.
  destruct (F64.leb thresh F64.zero || F64.geb thresh F64.one); reflexivity.
Qed.

Lemma check_mostly_same_run (data : Data) (thresh : F64.t) :
  check_mostly_same data thresh =
  if F64.leb thresh F64.zero || F64.geb thresh F64.one
  then ([], Raise ValueError)
  else if validated data
  then ([GetDtypes; Mean],
        Return {| utils.title := "mostly_same";
                  utils.outcome_field := per_column (mostly_same thresh) data;
                  utils.extra_fields :=
                    [("thresh", Scalar thresh); ("mean", per_column mean data)] |})
  else ([GetDtypes], Raise (TypeError err_message)).
Proof.
  unfold check_mostly_same. rewrite validate_thresh_run, validate_binary_dtype_run.
  destruct (F64.leb thresh F64.zero || F64.geb thresh F64.one); [reflexivity |].
  destruct (validated data); [| reflexivity].
  destruct data as [df | s]; cbn -[each each2 F64.geb F64.leb F64.sub F64.one list_mean].
  - rewrite !each_each, each2_each. reflexivity.
  - reflexivity.
Qed.

(** ** Order of float64 *)

Lemma SFcompare_antisym (x y : spec_float) :
  SFcompare y x = option_map CompOpp (SFcompare x y).
Proof.
  destruct x as [sx | sx | | sx mx ex], y as [sy | sy | | sy my ey]; simpl;
    try reflexivity;
    try (destruct sx; reflexivity); try (destruct sy; reflexivity);
    try (destruct sx, sy; reflexivity).
  assert (Hm : Pos.compare_cont Eq my mx = CompOpp (Pos.compare_cont Eq mx my))
    by (rewrite (Pos.compare_cont_antisym mx my Eq); reflexivity).
  destruct sx, sy; try reflexivity;
    rewrite (Z.compare_antisym ex ey), Hm;
    destruct (ex ?= ey); cbn [CompOpp option_map]; try reflexivity;
    rewrite CompOpp_involutive; reflexivity.
Qed.

Lemma ltb_not_geb (x y : F64.t) : F64.ltb x y = true -> F64.leb y x = false.
Proof.
  unfold F64.ltb, F64.leb, SFltb, SFleb. rewrite (SFcompare_antisym x y).
  destruct (SFcompare x y) as [[| |] |]; simpl; intros H;
    try discriminate; reflexivity.
Qed.

Lemma valid_thresh_passes (thresh : F64.t) :
  valid_thresh thresh = true ->
  F64.leb thresh F64.zero || F64.geb thresh F64.one = false.
Proof.
  unfold valid_thresh, F64.geb. intros H. apply andb_true_iff in H as [H0 H1].
  rewrite (ltb_not_geb _ _ H0).
  change (SFleb F64.one thresh) with (F64.leb F64.one thresh).
  rewrite (ltb_not_geb _ _ H1). reflexivity.
Qed.

(** ** Rounding of float64 *)

Lemma digits2_pos_log2 (p : positive) :
  Zpos (digits2_pos p) = Z.log2 (Zpos p) + 1.
Proof.
  induction p as [p IH | p IH |]; cbn [digits2_pos]; [| | reflexivity].
  - rewrite Pos2Z.inj_succ, IH.
    change (Z.pos p~1) with (2 * Z.pos p + 1). rewrite Z.log2_succ_double by lia. lia.
  - rewrite Pos2Z.inj_succ, IH.
    change (Z.pos p~0) with (2 * Z.pos p). rewrite Z.log2_double by lia. lia.
Qed.

Lemma Zdigits2_log2 (m : Z) : 0 < m -> Zdigits2 m = Z.log2 m + 1.
Proof. destruct m; try lia. intros _. apply digits2_pos_log2. Qed.

(** [d] is the number of binary digits of [m]. *)
Lemma log2_digits (m d : Z) : 0 < m -> (Z.log2 m + 1 = d <-> 2 ^ (d - 1) <= m < 2 ^ d).
Proof.
  intros Hm. split.
  - intros <-. replace (Z.log2 m + 1 - 1) with (Z.log2 m) by lia.
    pose proof (Z.log2_spec m Hm). rewrite <- Z.add_1_r in H. exact H.
  - intros H. assert (0 <= d - 1).
    { destruct (Z.le_gt_cases 0 (d - 1)) as [|Hneg]; [assumption|].
      assert (d <= 0) by lia. 
      assert (2 ^ d <= 1). { destruct (Z.eq_dec d 0) as [->|]; [simpl; lia|]. rewrite Z.pow_neg_r by lia. lia. }
      lia. }
    rewrite (Z.log2_unique m (d - 1)); try lia.
    replace (Z.succ (d - 1)) with d by lia. exact H.
Qed.

Lemma shr_1_m (mrs : shr_record) :
  0 <= shr_m mrs -> shr_m (shr_1 mrs) = shr_m mrs / 2.
Proof.
  destruct mrs as [m r s]. cbn [shr_m]. intros Hm.
  destruct m as [| [p | p |] | p]; try lia; cbn [shr_1 shr_m].
  - reflexivity.
  - change (Z.pos p~1) with (2 * Z.pos p + 1).
    apply Z.div_unique with 1; lia.
  - change (Z.pos p~0) with (2 * Z.pos p).
    apply Z.div_unique with 0; lia.
  - reflexivity.
Qed.

Lemma iter_pos_shr_m (p : positive) (mrs : shr_record) :
  0 <= shr_m mrs ->
  shr_m (iter_pos shr_1 p mrs) = shr_m mrs / 2 ^ Zpos p.
Proof.
  revert mrs. induction p as [p IH | p IH |]; intros mrs Hm; cbn [iter_pos].
  - assert (H1 : 0 <= shr_m (shr_1 mrs)) by (rewrite shr_1_m by assumption; apply Z.div_pos; lia).
    assert (H2 : 0 <= shr_m (iter_pos shr_1 p (shr_1 mrs))) by (rewrite IH by assumption; apply Z.div_pos; lia).
    rewrite IH, IH, shr_1_m by assumption.
    assert (E : 2 ^ Z.pos p~1 = 2 * (2 ^ Z.pos p * 2 ^ Z.pos p)).
    { rewrite Pos2Z.inj_xI.
      replace (2 * Z.pos p + 1) with (1 + Z.pos p + Z.pos p) by lia.
      rewrite !Z.pow_add_r by lia. lia. }
    rewrite E, !Z.div_div by lia. reflexivity.
  - assert (H2 : 0 <= shr_m (iter_pos shr_1 p mrs)) by (rewrite IH by assumption; apply Z.div_pos; lia).
    rewrite IH, IH by assumption.
    assert (E : 2 ^ Z.pos p~0 = 2 ^ Z.pos p * 2 ^ Z.pos p).
    { replace (Z.pos p~0) with (Z.pos p + Z.pos p) by lia.
      rewrite !Z.pow_add_r by lia. lia. }
    rewrite E, !Z.div_div by lia. reflexivity.
  - now apply shr_1_m.
Qed.

Lemma shr_m_of_loc (m : Z) (l : location) : shr_m (shr_record_of_loc m l) = m.
Proof. destruct l as [| []]; reflexivity. Qed.

(** Shifting right by [n >= 0] digits. *)
Lemma shr_spec (mrs : shr_record) (e n : Z) :
  0 <= shr_m mrs -> 0 <= n ->
  shr_m (fst (shr mrs e n)) = shr_m mrs / 2 ^ n /\ snd (shr mrs e n) = e + n.
Proof.
  intros Hm Hn. destruct n as [| p | p]; try lia; cbn [shr fst snd].
  - rewrite Z.div_1_r. lia.
  - split; [now apply iter_pos_shr_m | reflexivity].
Qed.

Lemma shr_nonneg (mrs : shr_record) (e n : Z) :
  0 <= shr_m mrs -> 0 <= shr_m (fst (shr mrs e n)).
Proof.
  intros Hm. destruct n as [| p | p]; cbn [shr fst]; try assumption.
  rewrite iter_pos_shr_m by assumption. apply Z.div_pos; lia.
Qed.

Lemma round_nearest_even_bounds (m : Z) (l : location) :
  m <= round_nearest_even m l <= m + 1.
Proof.
  destruct l as [| []]; cbn [round_nearest_even]; try lia.
  destruct (Z.even m); lia.
Qed.

Lemma fexp_normal (e : Z) : -1021 <= e -> fexp64 e = e - 53.
Proof. unfold fexp, emin. lia. Qed.

Lemma shr_fexp_spec (m e : Z) (l : location) (n : Z) :
  0 < m -> fexp64 (Zdigits2 m + e) - e = n -> 0 <= n ->
  exists mrs, shr_fexp 53 1024 m e l = (mrs, e + n) /\ shr_m mrs = m / 2 ^ n.
Proof.
  intros Hm Hn Hn0. unfold shr_fexp. rewrite Hn.
  destruct (shr_spec (shr_record_of_loc m l) e n) as [H1 H2];
    [rewrite shr_m_of_loc; lia | assumption |].
  rewrite shr_m_of_loc in H1.
  destruct (shr (shr_record_of_loc m l) e n) as [mrs e'].
  cbn [fst snd] in H1, H2. subst e'. now exists mrs.
Qed.

Lemma div_pow2_digits (m d n : Z) :
  0 <= n -> n < d -> 2 ^ (d - 1) <= m < 2 ^ d ->
  2 ^ (d - 1 - n) <= m / 2 ^ n < 2 ^ (d - n).
Proof.
  intros Hn Hd [Hlo Hhi].
  assert (Hp : 0 < 2 ^ n) by (apply Z.pow_pos_nonneg; lia).
  split.
  - apply Z.div_le_lower_bound; [assumption |].
    rewrite <- Z.pow_add_r by lia. now replace (n + (d - 1 - n)) with (d - 1) by lia.
  - apply Z.div_lt_upper_bound; [assumption |].
    rewrite <- Z.pow_add_r by lia. now replace (n + (d - n)) with d by lia.
Qed.

(** Rounding a mantissa of [d >= 53] digits in the normal range: the result
    is a normal number of the same or of the next binade. *)
Lemma binary_round_aux_normal (sx : bool) (mx ex : Z) (lx : location) (d : Z) :
  2 ^ (d - 1) <= mx < 2 ^ d -> 53 <= d ->
  -1021 <= d + ex -> d + ex <= 1023 ->
  exists m e,
    binary_round_aux 53 1024 sx mx ex lx = S754_finite sx m e /\
    2 ^ 52 <= Zpos m < 2 ^ 53 /\
    (e = d + ex - 53 \/ (e = d + ex - 52 /\ Zpos m = 2 ^ 52)).
Proof.
  intros Hmx Hd Hlo Hhi.
  assert (Hpos : 0 < mx).
  { assert (0 < 2 ^ (d - 1)) by (apply Z.pow_pos_nonneg; lia). lia. }
  assert (Hdig : Zdigits2 mx = d).
  { rewrite Zdigits2_log2 by assumption. now apply log2_digits. }
  unfold binary_round_aux.
  destruct (shr_fexp_spec mx ex lx (d - 53)) as (mrs1 & E1 & Hm1);
    [assumption | rewrite Hdig, fexp_normal by lia; lia | lia |].
  rewrite E1.
  pose proof (div_pow2_digits mx d (d - 53) ltac:(lia) ltac:(lia) Hmx) as Hb1.
  replace (d - 1 - (d - 53)) with 52 in Hb1 by lia.
  replace (d - (d - 53)) with 53 in Hb1 by lia.
  rewrite <- Hm1 in Hb1.
  pose proof (round_nearest_even_bounds (shr_m mrs1) (loc_of_shr_record mrs1)) as Hr.
  set (m2 := round_nearest_even (shr_m mrs1) (loc_of_shr_record mrs1)) in *.
  set (e1 := ex + (d - 53)) in *.
  assert (Hm2 : 2 ^ 52 <= m2 <= 2 ^ 53) by lia.
  destruct (Z.eq_dec m2 (2 ^ 53)) as [Heq | Hne].
  - assert (Hdig2 : Zdigits2 m2 = 54).
    { rewrite Heq. reflexivity. }
    destruct (shr_fexp_spec m2 e1 loc_Exact 1) as (mrs2 & E2 & Hm3);
      [lia | rewrite Hdig2, fexp_normal by (unfold e1; lia); lia | lia |].
    rewrite E2, Hm3, Heq.
    change (2 ^ 53 / 2 ^ 1) with (Z.pos 4503599627370496).
    cbv iota beta.
    replace (e1 + 1 <=? 1024 - 53) with true by (symmetry; apply Z.leb_le; unfold e1; lia).
    eexists _, _. split; [reflexivity |]. split; [simpl; lia |].
    right. split; [unfold e1; lia | reflexivity].
  - assert (Hdig2 : Zdigits2 m2 = 53).
    { rewrite Zdigits2_log2 by lia. apply log2_digits; lia. }
    destruct (shr_fexp_spec m2 e1 loc_Exact 0) as (mrs2 & E2 & Hm3);
      [lia | rewrite Hdig2, fexp_normal by (unfold e1; lia); lia | lia |].
    rewrite E2, Hm3. rewrite Z.div_1_r.
    destruct m2 as [| p | p]; try lia.
    replace (e1 + 0 <=? 1024 - 53) with true by (symmetry; apply Z.leb_le; unfold e1; lia).
    eexists _, _. split; [reflexivity |]. split; [lia |].
    left. unfold e1. lia.
Qed.

Lemma iter_xO_pow2 (p k : positive) :
  Zpos (Pos.iter xO p k) = Zpos p * 2 ^ Zpos k.
Proof.
  induction k as [| k IH] using Pos.peano_ind.
  - cbn [Pos.iter]. lia.
  - rewrite Pos.iter_succ, Pos2Z.inj_xO, IH, Pos2Z.inj_succ, Z.pow_succ_r by lia. lia.
Qed.

Lemma binary_round_normal (sx : bool) (p : positive) (ex d : Z) :
  2 ^ (d - 1) <= Zpos p < 2 ^ d ->
  -1021 <= d + ex -> d + ex <= 1023 ->
  exists m e,
    binary_round 53 1024 sx p ex = S754_finite sx m e /\
    2 ^ 52 <= Zpos m < 2 ^ 53 /\
    (e = d + ex - 53 \/ (e = d + ex - 52 /\ Zpos m = 2 ^ 52)).
Proof.
  intros Hp Hlo Hhi.
  assert (Hd : 0 < d).
  { destruct (Z.lt_ge_cases 0 d) as [| Hneg]; [assumption |].
    assert (2 ^ d <= 1); [| lia].
    destruct (Z.eq_dec d 0) as [-> |]; [simpl; lia |].
    rewrite Z.pow_neg_r by lia. lia. }
  assert (Hdig : Zpos (digits2_pos p) = d).
  { rewrite digits2_pos_log2. apply log2_digits; [lia | assumption]. }
  unfold binary_round, shl_align. rewrite Hdig, fexp_normal by lia.
  destruct (d + ex - 53 - ex) as [| k | k] eqn:Hk.
  - destruct (binary_round_aux_normal sx (Zpos p) ex loc_Exact d)
      as (m & e & H); try assumption; try lia.
    now exists m, e.
  - destruct (binary_round_aux_normal sx (Zpos p) ex loc_Exact d)
      as (m & e & H); try assumption; try lia.
    now exists m, e.
  - assert (Hk' : Zpos k = 53 - d) by lia.
    destruct (binary_round_aux_normal sx (Zpos (Pos.iter xO p k)) (d + ex - 53)
                loc_Exact 53) as (m & e & H & Hm & He); try lia.
    + rewrite iter_xO_pow2, Hk'.
      assert (E1 : 2 ^ (53 - 1) = 2 ^ (d - 1) * 2 ^ (53 - d))
        by (rewrite <- Z.pow_add_r by lia; f_equal; lia).
      assert (E2 : 2 ^ 53 = 2 ^ d * 2 ^ (53 - d))
        by (rewrite <- Z.pow_add_r by lia; f_equal; lia).
      assert (0 < 2 ^ (53 - d)) by (apply Z.pow_pos_nonneg; lia).
      rewrite E1, E2. split.
      * apply Z.mul_le_mono_pos_r; lia.
      * apply Z.mul_lt_mono_pos_r; lia.
    + exists m, e. split; [exact H |]. split; [exact Hm | lia].
Qed.

Lemma shr_fexp_nonneg (m e : Z) (l : location) :
  0 <= m -> 0 <= shr_m (fst (shr_fexp 53 1024 m e l)).
Proof.
  intros Hm. unfold shr_fexp. apply shr_nonneg. now rewrite shr_m_of_loc.
Qed.

(** Rounding never makes a NaN, and keeps the sign. *)
Lemma binary_round_aux_signed (sx : bool) (mx ex : Z) (lx : location) :
  0 <= mx -> F64.signed sx (binary_round_aux 53 1024 sx mx ex lx).
Proof.
  intros Hmx. unfold binary_round_aux.
  pose proof (shr_fexp_nonneg mx ex lx Hmx) as H1.
  destruct (shr_fexp 53 1024 mx ex lx) as [mrs1 e1]. cbn [fst] in H1.
  pose proof (round_nearest_even_bounds (shr_m mrs1) (loc_of_shr_record mrs1)) as Hr.
  pose proof (shr_fexp_nonneg
                (round_nearest_even (shr_m mrs1) (loc_of_shr_record mrs1))
                e1 loc_Exact ltac:(lia)) as H2.
  destruct (shr_fexp 53 1024 _ e1 loc_Exact) as [mrs2 e2]. cbn [fst] in H2.
  destruct (shr_m mrs2) as [| p | p]; [reflexivity | | lia].
  destruct (e2 <=? 1024 - 53); reflexivity.
Qed.

Lemma binary_round_signed (sx : bool) (p : positive) (ex : Z) :
  F64.signed sx (binary_round 53 1024 sx p ex).
Proof.
  unfold binary_round.
  destruct (shl_align p ex _) as [mz ez]. apply binary_round_aux_signed. lia.
Qed.

(** ** Order on positive finite numbers *)

Lemma leb_finite_pos (m1 m2 : positive) (e1 e2 : Z) :
  SFleb (S754_finite false m1 e1) (S754_finite false m2 e2) = true <->
  e1 < e2 \/ (e1 = e2 /\ Zpos m1 <= Zpos m2).
Proof.
  unfold SFleb, SFcompare.
  destruct (Z.compare_spec e1 e2) as [He | He | He].
  - change (Pos.compare_cont Eq m1 m2) with (Pos.compare m1 m2).
    destruct (Pos.compare_spec m1 m2) as [Hm | Hm | Hm]; split; intros H;
      try discriminate; try reflexivity; lia.
  - split; [lia | reflexivity].
  - split; [discriminate | lia].
Qed.

Lemma ltb_finite_pos (m1 m2 : positive) (e1 e2 : Z) :
  SFltb (S754_finite false m1 e1) (S754_finite false m2 e2) = true <->
  e1 < e2 \/ (e1 = e2 /\ Zpos m1 < Zpos m2).
Proof.
  unfold SFltb, SFcompare.
  destruct (Z.compare_spec e1 e2) as [He | He | He].
  - change (Pos.compare_cont Eq m1 m2) with (Pos.compare m1 m2).
    destruct (Pos.compare_spec m1 m2) as [Hm | Hm | Hm]; split; intros H;
      try discriminate; try reflexivity; lia.
  - split; [lia | reflexivity].
  - split; [discriminate | lia].
Qed.

(** A number that is zero or negative is below one that is zero or
    positive. *)
Lemma leb_signed (x y : spec_float) :
  (x = S754_zero false \/ F64.signed true x) -> F64.signed false y -> SFleb x y = true.
Proof.
  intros Hx Hy.
  destruct y as [sy | sy | | sy my ey]; cbn [F64.signed] in Hy;
    try contradiction; subst sy;
    (destruct Hx as [-> | Hx]; [reflexivity |]);
    destruct x as [sx | sx | | sx mx ex]; cbn [F64.signed] in Hx;
    try contradiction; subst sx; reflexivity.
Qed.

(** ** Conversion of integers *)

Lemma of_Z_pos (z d : Z) :
  0 < z -> 2 ^ (d - 1) <= z < 2 ^ d -> d <= 1023 ->
  exists m e,
    F64.of_Z z = S754_finite false m e /\
    2 ^ 52 <= Zpos m < 2 ^ 53 /\
    (e = d - 53 \/ (e = d - 52 /\ Zpos m = 2 ^ 52)).
Proof.
  intros Hz0 Hz Hd.
  destruct z as [| p | p]; try lia.
  unfold F64.of_Z, binary_normalize, F64.prec, F64.emax.
  assert (Hd0 : 0 < d).
  { destruct (Z.lt_ge_cases 0 d) as [| Hneg]; [assumption |].
    assert (2 ^ d <= 1); [| lia].
    destruct (Z.eq_dec d 0) as [-> |]; [simpl; lia |].
    rewrite Z.pow_neg_r by lia. lia. }
  destruct (binary_round_normal false p 0 d) as (m & e & H & Hm & He);
    try assumption; try lia.
  exists m, e. split; [exact H |]. split; [exact Hm | lia].
Qed.

Lemma of_Z_neg (z : Z) : z < 0 -> F64.signed true (F64.of_Z z).
Proof.
  destruct z as [| p | p]; try lia. intros _.
  unfold F64.of_Z, binary_normalize. apply binary_round_signed.
Qed.

Lemma of_Z_nonneg (z : Z) : 0 <= z -> F64.signed false (F64.of_Z z).
Proof.
  destruct z as [| p | p]; try lia; intros _; [reflexivity |].
  unfold F64.of_Z, binary_normalize. apply binary_round_signed.
Qed.

(** ** Subtraction from one *)

Lemma one_eq : F64.one = S754_finite false 4503599627370496 (-52).
Proof. reflexivity. Qed.

Lemma half_eq : F64.half = S754_finite false 4503599627370496 (-53).
Proof. reflexivity. Qed.

Lemma valid_mantissa (s : bool) (m : positive) (e : Z) :
  valid_binary 53 1024 (S754_finite s m e) = true -> Zpos m < 2 ^ 53.
Proof.
  unfold valid_binary, bounded, canonical_mantissa. intros H.
  apply andb_true_iff in H as [H _]. apply Z.eqb_eq in H.
  rewrite digits2_pos_log2 in H.
  assert (Hd : Z.log2 (Zpos m) + 1 <= 53) by (unfold fexp, emin in H; lia).
  pose proof (Z.log2_spec (Zpos m) ltac:(lia)) as [_ Hlt].
  eapply Z.lt_le_trans; [exact Hlt |].
  apply Z.pow_le_mono_r; lia.
Qed.

Lemma positive_finite (t : spec_float) :
  SFltb F64.zero t = true -> SFltb t F64.one = true ->
  exists m e, t = S754_finite false m e /\
              (e < -52 \/ (e = -52 /\ Zpos m < 2 ^ 52)).
Proof.
  intros H0 H1. rewrite one_eq in H1.
  destruct t as [s | s | | s m e]; try discriminate.
  - destruct s; discriminate.
  - destruct s; [discriminate |]. exists m, e. split; [reflexivity |].
    apply ltb_finite_pos in H1. simpl. simpl in H1. lia.
Qed.

Lemma sub_one_finite (m : positive) (e : Z) :
  e <= -52 -> Zpos m < 2 ^ (- e) ->
  exists p, Zpos p = 2 ^ (- e) - Zpos m /\
            F64.sub F64.one (S754_finite false m e) = binary_round 53 1024 false p e.
Proof.
  intros He Hm. rewrite one_eq. unfold F64.sub, SFsub, F64.prec, F64.emax.
  replace (Z.min (-52) e) with e by lia.
  assert (E1 : Zpos (fst (shl_align 4503599627370496 (-52) e)) = 2 ^ (- e)).
  { unfold shl_align. destruct (e - -52) as [| k | k] eqn:Hk; cbn [fst]; try lia.
    - replace e with (-52) by lia. reflexivity.
    - rewrite iter_xO_pow2. replace (Zpos k) with (- e - 52) by lia.
      change (Z.pos 4503599627370496) with (2 ^ 52).
      rewrite <- Z.pow_add_r by lia. f_equal. lia. }
  assert (E2 : Zpos (fst (shl_align m e e)) = Zpos m).
  { unfold shl_align. rewrite Z.sub_diag. reflexivity. }
  cbn [cond_Zopp]. rewrite E1, E2.
  destruct (2 ^ (- e) - Zpos m) as [| p | p] eqn:Hp; try lia.
  exists p. split; reflexivity.
Qed.

(** [1 - t] is a number, and not negative, when [0 < t < 1]. *)
Lemma sub_one_signed (t : spec_float) :
  valid_binary 53 1024 t = true ->
  SFltb F64.zero t = true -> SFltb t F64.one = true ->
  F64.signed false (F64.sub F64.one t).
Proof.
  intros Hv H0 H1. destruct (positive_finite t H0 H1) as (m & e & -> & He).
  apply valid_mantissa in Hv.
  destruct (sub_one_finite m e) as (p & Hp & ->); [lia | |].
  - destruct He as [He | [-> Hm]]; [| simpl; lia].
    eapply Z.lt_le_trans; [exact Hv |]. apply Z.pow_le_mono_r; lia.
  - apply binary_round_signed.
Qed.

(** [1 - t >= 0.5] when [0 < t <= 0.5], rounding included. *)
Lemma sub_one_ge_half (t : spec_float) :
  valid_binary 53 1024 t = true ->
  SFltb F64.zero t = true -> SFleb t F64.half = true ->
  SFleb F64.half (F64.sub F64.one t) = true.
Proof.
  intros Hv H0 H1. rewrite half_eq in *.
  destruct t as [s | s | | s m e]; try discriminate;
    try (destruct s; discriminate).
  destruct s; [discriminate |].
  apply valid_mantissa in Hv. apply leb_finite_pos in H1.
  assert (Hm : Zpos m <= 2 ^ (- e - 1)).
  { destruct H1 as [He | [-> Hm]]; [| simpl; simpl in Hm; lia].
    etransitivity; [apply Z.lt_le_incl; exact Hv |].
    apply Z.pow_le_mono_r; lia. }
  assert (E : 2 ^ (- e) = 2 * 2 ^ (- e - 1)).
  { rewrite <- Z.pow_succ_r by lia. f_equal. lia. }
  assert (Hpos : 0 < 2 ^ (- e - 1)) by (apply Z.pow_pos_nonneg; lia).
  destruct (sub_one_finite m e) as (p & Hp & ->); [lia | lia |].
  destruct (binary_round_normal false p e (- e)) as (m' & e' & -> & Hm' & He');
    [lia | lia | lia |].
  apply leb_finite_pos. simpl in Hm'. lia.
Qed.

(** ** Division *)

Lemma SFdiv_core_nonneg (m1 e1 m2 e2 : Z) :
  0 <= m1 -> 0 < m2 ->
  0 <= fst (fst (SFdiv_core_binary 53 1024 m1 e1 m2 e2)).
Proof.
  intros H1 H2. unfold SFdiv_core_binary.
  set (s := e1 - e2 - _).
  set (m' := match s with Z.pos _ => Z.shiftl m1 s | 0 => m1 | Z.neg _ => 0 end).
  assert (Hm' : 0 <= m').
  { unfold m'. destruct s; try lia. apply Z.shiftl_nonneg. assumption. }
  pose proof (Z_div_mod m' m2 ltac:(lia)) as Hdiv.
  destruct (Z.div_eucl m' m2) as [q r]. cbn [fst].
  destruct Hdiv as [Hq Hr]. nia.
Qed.

(** Dividing by a positive finite number never makes a NaN, and keeps the
    sign. *)
Lemma div_signed (sx : bool) (x : spec_float) (my : positive) (ey : Z) :
  F64.signed sx x -> F64.signed sx (F64.div x (S754_finite false my ey)).
Proof.
  intros Hx. unfold F64.div, SFdiv.
  destruct x as [s | s | | s mx ex]; cbn [F64.signed] in Hx; try contradiction; subst s.
  - cbn [F64.signed]. apply xorb_false_r.
  - cbn [F64.signed]. apply xorb_false_r.
  - pose proof (SFdiv_core_nonneg (Zpos mx) ex (Zpos my) ey ltac:(lia) ltac:(lia)) as H.
    destruct (SFdiv_core_binary _ _ (Zpos mx) ex (Zpos my) ey) as [[mz ez] lz].
    cbn [fst] in H. rewrite xorb_false_r.
    now apply binary_round_aux_signed.
Qed.

Lemma SFdiv_core_normal (m1 m2 : positive) (e1 e2 : Z) :
  2 ^ 52 <= Zpos m1 < 2 ^ 53 -> 2 ^ 52 <= Zpos m2 < 2 ^ 53 ->
  -1021 <= e1 - e2 ->
  exists l,
    SFdiv_core_binary 53 1024 (Zpos m1) e1 (Zpos m2) e2 =
    (Zpos m1 * 2 ^ 53 / Zpos m2, e1 - e2 - 53, l).
Proof.
  intros H1 H2 He. unfold SFdiv_core_binary.
  rewrite !Zdigits2_log2 by lia.
  rewrite (proj2 (log2_digits (Zpos m1) 53 ltac:(lia))) by assumption.
  rewrite (proj2 (log2_digits (Zpos m2) 53 ltac:(lia))) by assumption.
  replace (53 + e1 - (53 + e2)) with (e1 - e2) by lia.
  rewrite fexp_normal by lia.
  replace (Z.min (e1 - e2 - 53) (e1 - e2)) with (e1 - e2 - 53) by lia.
  replace (e1 - e2 - (e1 - e2 - 53)) with 53 by lia.
  cbv iota. rewrite Z.shiftl_mul_pow2 by lia.
  unfold Z.div.
  destruct (Z.div_eucl (Zpos m1 * 2 ^ 53) (Zpos m2)) as [q r].
  eexists. reflexivity.
Qed.

(** The quotient of two positive normal numbers is at least one when the
    dividend is at least the divisor. *)
Lemma div_ge_one (m1 m2 : positive) (e1 e2 : Z) :
  2 ^ 52 <= Zpos m1 < 2 ^ 53 -> 2 ^ 52 <= Zpos m2 < 2 ^ 53 ->
  e2 < e1 \/ (e1 = e2 /\ Zpos m2 <= Zpos m1) ->
  e1 - e2 <= 1000 ->
  SFleb F64.one (F64.div (S754_finite false m1 e1) (S754_finite false m2 e2)) = true.
Proof.
  intros H1 H2 Hle Hhi. unfold F64.div, SFdiv, F64.prec, F64.emax.
  destruct (SFdiv_core_normal m1 m2 e1 e2 H1 H2 ltac:(lia)) as [l ->].
  cbn [xorb].
  set (q := Zpos m1 * 2 ^ 53 / Zpos m2).
  assert (Hq : 2 ^ 52 <= q < 2 ^ 54).
  { unfold q. split.
    - apply Z.div_le_lower_bound; [lia |]. nia.
    - apply Z.div_lt_upper_bound; [lia |]. nia. }
  assert (Hq' : Zpos m2 <= Zpos m1 -> 2 ^ 53 <= q).
  { intros H. unfold q. apply Z.div_le_lower_bound; [lia |]. nia. }
  rewrite one_eq.
  destruct (Z.lt_ge_cases q (2 ^ 53)) as [Hlt | Hge].
  - destruct (binary_round_aux_normal false q (e1 - e2 - 53) l 53)
      as (m & e & -> & Hm & He); try lia.
    apply leb_finite_pos. simpl in Hm. lia.
  - destruct (binary_round_aux_normal false q (e1 - e2 - 53) l 54)
      as (m & e & -> & Hm & He); try lia.
    apply leb_finite_pos. simpl in Hm. lia.
Qed.

(** ** The mean of a column *)

Lemma numeric_size (s : Series) :
  binary_dtype s = true -> List.length (numeric s) = size s.
Proof.
  intros H. destruct (validated_numeric s H) as [[l ->] | [l ->]]; simpl;
    [apply length_map | reflexivity].
Qed.

Lemma digits_exist (z k : Z) :
  0 < z -> z < 2 ^ k -> 0 <= k ->
  exists d, 2 ^ (d - 1) <= z < 2 ^ d /\ 0 < d <= k.
Proof.
  intros Hz Hk Hk0. exists (Z.log2 z + 1).
  split; [now apply log2_digits |].
  pose proof (Z.log2_nonneg z).
  apply Z.log2_lt_pow2 in Hk; lia.
Qed.

(** The count of rows, as a float64. *)
Lemma of_Z_count (n : Z) :
  0 < n -> n < 2 ^ 63 ->
  exists d m e,
    2 ^ (d - 1) <= n < 2 ^ d /\ 0 < d <= 63 /\
    F64.of_Z n = S754_finite false m e /\
    2 ^ 52 <= Zpos m < 2 ^ 53 /\
    (e = d - 53 \/ (e = d - 52 /\ Zpos m = 2 ^ 52)).
Proof.
  intros Hn Hb. destruct (digits_exist n 63 Hn Hb ltac:(lia)) as (d & Hd & Hd').
  destruct (of_Z_pos n d Hn Hd ltac:(lia)) as (m & e & H).
  exists d, m, e. tauto.
Qed.

Lemma of_Z_signed (z : Z) : exists sx, F64.signed sx (F64.of_Z z).
Proof.
  destruct (Z.lt_ge_cases z 0) as [H | H].
  - exists true. now apply of_Z_neg.
  - exists false. now apply of_Z_nonneg.
Qed.

(** The mean of a column with a row is a number. *)
Lemma list_mean_signed (l : list Z) :
  l <> [] -> Z.of_nat (List.length l) < 2 ^ 63 ->
  exists sx, F64.signed sx (list_mean l).
Proof.
  intros Hne Hb. destruct l as [| x l]; [contradiction |].
  unfold list_mean.
  destruct (of_Z_count (Z.of_nat (List.length (x :: l)))) as (d & m & e & _ & _ & -> & _);
    [simpl; lia | assumption |].
  destruct (of_Z_signed (list_sum (x :: l))) as [sx Hs].
  exists sx. now apply div_signed.
Qed.

(** ** Thresholds *)

Lemma thresh_finite (t : spec_float) :
  F64.ltb F64.zero t = true -> F64.ltb t F64.one = true ->
  exists m e, t = S754_finite false m e.
Proof.
  intros H0 H1. destruct (positive_finite t H0 H1) as (m & e & -> & _).
  now exists m, e.
Qed.

Lemma below_half_valid_thresh (t : spec_float) :
  F64.ltb F64.zero t = true -> F64.leb t F64.half = true ->
  valid_thresh t = true.
Proof.
  intros H0 H1. unfold valid_thresh. rewrite H0. cbn [andb].
  unfold F64.ltb, F64.leb in *. rewrite half_eq in H1. rewrite one_eq.
  destruct t as [s | s | | s m e]; try discriminate;
    try (destruct s; discriminate).
  destruct s; [discriminate |].
  apply leb_finite_pos in H1. apply ltb_finite_pos. lia.
Qed.

(** When [t <= r], every number is at least [t] or at most [r]. *)
Lemma covered (x t r : spec_float) (mt : positive) (et : Z) (sx : bool) :
  F64.signed sx x -> t = S754_finite false mt et -> SFleb t r = true ->
  SFleb t x || SFleb x r = true.
Proof.
  intros Hx -> Htr. apply orb_true_iff.
  destruct r as [sr | sr | | sr mr er]; try discriminate.
  - destruct sr; [discriminate |].
    destruct x as [s | s | | s mx ex]; cbn [F64.signed] in Hx;
      try contradiction.
    + right. reflexivity.
    + destruct s; [right | left]; reflexivity.
    + right. reflexivity.
  - destruct sr; [discriminate |].
    destruct x as [s | s | | s mx ex]; cbn [F64.signed] in Hx;
      try contradiction.
    + right. reflexivity.
    + destruct s; [right | left]; reflexivity.
    + destruct s; [right; reflexivity |].
      rewrite !leb_finite_pos. apply leb_finite_pos in Htr. lia.
Qed.

Lemma int64_bounded_length (l : list Z) :
  int64_bounded l = true -> Z.of_nat (List.length l) < 2 ^ 63.
Proof.
  unfold int64_bounded. intros H. apply andb_true_iff in H as [H _].
  now apply Z.ltb_lt.
Qed.

Lemma int64_bounded_In (l : list Z) (x : Z) :
  int64_bounded l = true -> In x l -> - 2 ^ 63 <= x < 2 ^ 63.
Proof.
  unfold int64_bounded. intros H Hin. apply andb_true_iff in H as [_ H].
  rewrite forallb_forall in H. specialize (H x Hin).
  apply andb_true_iff in H as [H1 H2].
  apply Z.leb_le in H1. apply Z.ltb_lt in H2. lia.
Qed.

(** Under a threshold of at most one half, every column with a row is
    mostly the same. *)
Lemma mostly_same_below_half (s : Series) (thresh : F64.t) :
  binary_dtype s = true ->
  size s <> 0%nat ->
  int64_bounded (numeric s) = true ->
  F64.valid thresh = true ->
  F64.ltb F64.zero thresh = true ->
  F64.leb thresh F64.half = true ->
  mostly_same thresh s = true.
Proof.
  intros Hd Hne Hwf Hv H0 H1. unfold mostly_same, mean, F64.geb, F64.leb.
  destruct (list_mean_signed (numeric s)) as [sx Hs].
  - intros E. apply Hne. rewrite <- numeric_size, E by assumption. reflexivity.
  - now apply int64_bounded_length.
  - pose proof (below_half_valid_thresh thresh H0 H1) as Ht.
    apply andb_true_iff in Ht as [_ Ht].
    destruct (thresh_finite thresh H0 Ht) as (m & e & E).
    apply (covered _ thresh _ m e sx Hs E).
    (* thresh <= half <= 1 - thresh *)
    pose proof (sub_one_ge_half thresh Hv H0 H1) as Hh.
    unfold F64.leb in H1. rewrite half_eq in *. subst thresh.
    destruct (F64.sub F64.one (S754_finite false m e)) as [sr | sr | | sr mr er];
      try discriminate.
    + destruct sr; [discriminate | reflexivity].
    + destruct sr; [discriminate |].
      apply leb_finite_pos in H1, Hh. apply leb_finite_pos. lia.
Qed.

(** ** Constant columns *)

Lemma fold_add_shift (l : list Z) (a : Z) :
  fold_left Z.add l a = a + fold_left Z.add l 0.
Proof.
  revert a. induction l as [| x l IH]; intros a; simpl; [lia |].
  rewrite (IH (a + x)), (IH x). lia.
Qed.

Lemma list_sum_constant (l : list Z) (c : Z) :
  (forall x, In x l -> x = c) -> list_sum l = Z.of_nat (List.length l) * c.
Proof.
  unfold list_sum. induction l as [| x l IH]; intros H; [reflexivity |].
  cbn [fold_left List.length]. rewrite fold_add_shift, IH.
  - rewrite (H x) by now left. lia.
  - intros y Hy. apply H. now right.
Qed.

Lemma all_same_constant (l : list Z) :
  nan_eqb (list_min l) (list_max l) = true ->
  exists c, In c l /\ forall x, In x l -> x = c.
Proof.
  intros H. apply nan_eqb_spec in H as (lo & hi & [Hin Hlo] & [_ Hhi] & <-).
  exists lo. split; [exact Hin |].
  intros x Hx. specialize (Hlo x Hx). specialize (Hhi x Hx). lia.
Qed.

(** The mean of a column of [n] copies of [c >= 1] is at least one. *)
Lemma mean_constant_ge_one (n c : Z) :
  0 < n < 2 ^ 63 -> 1 <= c < 2 ^ 63 ->
  SFleb F64.one (F64.div (F64.of_Z (n * c)) (F64.of_Z n)) = true.
Proof.
  intros Hn Hc.
  destruct (of_Z_count n) as (d2 & m2 & e2 & Hd2 & Hd2' & E2 & Hm2 & He2); try lia.
  destruct (Z.eq_dec c 1) as [-> | Hc1].
  - rewrite Z.mul_1_r, E2. apply div_ge_one; try assumption; lia.
  - assert (Hs : 0 < n * c) by nia.
    assert (Hs' : n * c < 2 ^ 126).
    { change (2 ^ 126) with (2 ^ 63 * 2 ^ 63). nia. }
    destruct (digits_exist (n * c) 126 Hs Hs' ltac:(lia)) as (d1 & Hd1 & Hd1').
    destruct (of_Z_pos (n * c) d1 Hs Hd1 ltac:(lia)) as (m1 & e1 & E1 & Hm1 & He1).
    assert (Hdd : d2 < d1).
    { apply (Z.pow_lt_mono_r_iff 2); [lia | lia |].
      assert (E : 2 ^ d2 = 2 * 2 ^ (d2 - 1)).
      { rewrite <- Z.pow_succ_r by lia. f_equal. lia. }
      nia. }
    rewrite E1, E2. apply div_ge_one; try assumption; lia.
Qed.

(** A constant column with a row is mostly the same, whatever the
    threshold between 0 and 1. *)
Lemma all_same_mostly_same (s : Series) (thresh : F64.t) :
  binary_dtype s = true ->
  int64_bounded (numeric s) = true ->
  F64.valid thresh = true ->
  valid_thresh thresh = true ->
  all_same s = true -> mostly_same thresh s = true.
Proof.
  intros Hd Hwf Hv Ht Hsame. unfold all_same in Hsame.
  apply all_same_constant in Hsame as (c & Hin & Hall).
  apply andb_true_iff in Ht as [H0 H1].
  pose proof (int64_bounded_length _ Hwf) as Hlen.
  pose proof (int64_bounded_In _ c Hwf Hin) as Hc.
  unfold mostly_same, mean. apply orb_true_iff.
  destruct (numeric s) as [| x l] eqn:El; [contradiction |].
  unfold list_mean. rewrite (list_sum_constant _ c Hall).
  set (n := Z.of_nat (List.length (x :: l))) in *.
  assert (Hn : 0 < n) by (unfold n; simpl; lia).
  destruct (Z.lt_ge_cases c 1) as [Hneg | Hpos].
  - right.
    destruct (of_Z_count n) as (d & m & e & _ & _ & E & _); try lia.
    apply leb_signed; [| now apply sub_one_signed].
    rewrite E. destruct (Z.eq_dec c 0) as [-> | Hc0].
    + left. rewrite Z.mul_0_r. reflexivity.
    + right. apply div_signed. apply of_Z_neg. nia.
  - left. unfold F64.geb.
    pose proof (mean_constant_ge_one n c ltac:(lia) ltac:(lia)) as Hge.
    destruct (thresh_finite thresh H0 H1) as (mt & et & ->).
    unfold F64.ltb in H1. rewrite one_eq in *.
    destruct (F64.div (F64.of_Z (n * c)) (F64.of_Z n)) as [sr | sr | | sr mr er];
      try discriminate.
    + destruct sr; [discriminate | reflexivity].
    + destruct sr; [discriminate |].
      apply ltb_finite_pos in H1. apply leb_finite_pos in Hge.
      apply leb_finite_pos. lia.
Qed.

(** The comparisons are inclusive on the rounded numbers: the float64
    [1 - 0.9] lies just below the float64 [0.1], so at threshold 0.9 a
    column that is exactly 90% zeros is not flagged. *)
Remark inclusive_on_rounded_values :
  mean (IntSeries I64 (ones_zeros 10 90)) = F64.decimal 1 1 /\
  F64.ltb (F64.sub F64.one (F64.decimal 9 1)) (F64.decimal 1 1) = true /\
  outcomes (check_mostly_same (Column (IntSeries I64 (ones_zeros 10 90)))
              (F64.decimal 9 1)) = Some [false].
Proof. repeat split; vm_compute; reflexivity. Qed.

(** ** What the specification claims *)

(** C1. On validated data [check_all_same] asks for the minimum and the
    maximum, and its outcome for a column is true exactly when the column
    has a minimum and a maximum and the two are the same integer: equality
    is exact, without tolerance. *)
Theorem check_all_same_spec (data : Data) :
  validated data = true ->
  exists report,
    check_all_same data = ([GetDtypes; Min; Max], Return report) /\
    utils.title report = "all_same" /\
    Forall2 (fun s b =>
               b = true <->
               exists lo hi,
                 is_minimum (numeric s) lo /\ is_maximum (numeric s) hi /\ lo = hi)
            (columns data) (values (utils.outcome_field report)).
Proof.
  intros Hv. rewrite check_all_same_run, Hv. eexists. split; [reflexivity |].
  split; [reflexivity |]. cbn [utils.outcome_field].
  rewrite per_column_values. apply Forall2_map_same. intros s _.
  apply nan_eqb_spec.
Qed.

Lemma check_all_same_spec_witness :
  exists report,
    check_all_same (Frame [("A", IntSeries I64 [1; 1; 1]);
                           ("B", BoolSeries [true; false; true])])
      = ([GetDtypes; Min; Max], Return report) /\
    utils.title report = "all_same" /\
    Forall2 (fun s b =>
               b = true <->
               exists lo hi,
                 is_minimum (numeric s) lo /\ is_maximum (numeric s) hi /\ lo = hi)
            [IntSeries I64 [1; 1; 1]; BoolSeries [true; false; true]]
            (values (utils.outcome_field report)).
Proof.
  apply (check_all_same_spec
           (Frame [("A", IntSeries I64 [1; 1; 1]);
                   ("B", BoolSeries [true; false; true])])).
  reflexivity.
Defined.



(** C4, as the code has it. [validate_binary_dtype] raises the type error,
    with its message, exactly when some column has a dtype other than bool
    and int64, and otherwise returns [None]; it raises nothing else. Columns
    that are all bool or all int64 pass, a floating-point or object (string)
    column always raises, and so does an integer column of another width. *)
Theorem validate_binary_dtype_spec (data : Data) :
  (result (validate_binary_dtype data) = Raise (TypeError err_message) <->
   exists s, In s (columns data) /\
             dtypes s <> Np.bool_ /\ dtypes s <> Np.int64) /\
  (result (validate_binary_dtype data) = Return tt <->
   forall s, In s (columns data) -> dtypes s = Np.bool_ \/ dtypes s = Np.int64) /\
  ((forall s, In s (columns data) -> dtypes s = Np.bool_) \/
   (forall s, In s (columns data) -> dtypes s = Np.int64) ->
   result (validate_binary_dtype data) = Return tt) /\
  ((exists s, In s (columns data) /\
              (Np.is_floating (dtypes s) = true \/ dtypes s = Np.object_)) ->
   result (validate_binary_dtype data) = Raise (TypeError err_message)).
Proof.
  rewrite validate_binary_dtype_run. cbn [result snd].
  assert (Hok : validated data = true <->
                forall s, In s (columns data) ->
                          dtypes s = Np.bool_ \/ dtypes s = Np.int64).
  { unfold validated. rewrite forallb_forall. unfold binary_dtype.
    split; intros H s Hs; apply isin_types, H, Hs. }
  assert (Hbad : validated data = false <->
                 exists s, In s (columns data) /\
                           dtypes s <> Np.bool_ /\ dtypes s <> Np.int64).
  { rewrite validated_false_iff. split; intros (s & Hin & H); exists s;
      (split; [exact Hin |]).
    - unfold binary_dtype in H. split; intros E;
        assert (Np.isin types (dtypes s) = true) by (apply isin_types; auto);
        congruence.
    - unfold binary_dtype. destruct (Np.isin types (dtypes s)) eqn:E;
        [| reflexivity].
      apply isin_types in E. destruct H as [H1 H2], E as [E | E]; contradiction. }
  split; [| split; [| split]].
  - rewrite <- Hbad. destruct (validated data); split; intros H;
      try discriminate; reflexivity.
  - rewrite <- Hok. destruct (validated data); split; intros H;
      try discriminate; reflexivity.
  - intros H. assert (Hv : validated data = true).
    { apply Hok. destruct H as [H | H]; intros s Hs; [left | right]; auto. }
    rewrite Hv. reflexivity.
  - intros (s & Hin & H). assert (Hv : validated data = false).
    { apply Hbad. exists s. split; [exact Hin |].
      destruct H as [H | H]; [destruct (dtypes s); try discriminate |
                              rewrite H]; split; discriminate. }
    rewrite Hv. reflexivity.
Qed.

Lemma validate_binary_dtype_spec_witness :
  result (validate_binary_dtype
            (Frame [("A", BoolSeries [true; false]);
                    ("B", FloatSeries F64k [F64.zero; F64.one])]))
  = Raise (TypeError err_message).
Proof.
  apply (proj2 (proj2 (proj2 (validate_binary_dtype_spec
           (Frame [("A", BoolSeries [true; false]);
                   ("B", FloatSeries F64k [F64.zero; F64.one])]))))).
  exists (FloatSeries F64k [F64.zero; F64.one]). split.
  - simpl. right. left. reflexivity.
  - left. reflexivity.
Defined.

(** C4, as stated, fails: a column of 32-bit integers is integer-typed, and
    [validate_binary_dtype] raises the type error on it. *)
Lemma validate_binary_dtype_int32_raises :
  let data := Column (IntSeries I32 [0; 1]) in
  (forall s, In s (columns data) -> bool_or_integer s = true) /\
  result (validate_binary_dtype data) = Raise (TypeError err_message).
Proof.
  split; [| reflexivity].
  intros s [<- | []]. reflexivity.
Qed.



(** C7. The report has the shape of the input: on a single column each
    check returns a scalar outcome, on a table one outcome per column under
    the column's name, the columns in order. *)
Theorem result_shape_mirrors_input (data : Data) (thresh : F64.t) :
  validated data = true ->
  valid_thresh thresh = true ->
  mirrors_input data (check_all_same data) /\
  mirrors_input data (check_mostly_same data thresh) /\
  mirrors_input data (check_outside_range data).
Proof.
  intros Hv Ht. apply valid_thresh_passes in Ht. unfold mirrors_input.
  rewrite check_all_same_run, check_mostly_same_run, check_outside_range_run.
  rewrite Hv, Ht.
  repeat split; eexists; (split; [reflexivity |]); cbn [utils.outcome_field];
    rewrite per_column_is_scalar, per_column_labels, per_column_values, length_map;
    auto.
Qed.

Lemma result_shape_mirrors_input_witness :
  let data := Frame [("A", IntSeries I64 [1; 1; 1]);
                     ("B", BoolSeries [true; false; true])] in
  mirrors_input data (check_all_same data) /\
  mirrors_input data (check_mostly_same data default_thresh) /\
  mirrors_input data (check_outside_range data).
Proof.
  apply (result_shape_mirrors_input
           (Frame [("A", IntSeries I64 [1; 1; 1]);
                   ("B", BoolSeries [true; false; true])])
           default_thresh); reflexivity.
Defined.


(** C5. [check_mostly_same] raises the value error exactly when the
    threshold is at most 0.0 or at least 1.0, and then before anything is
    asked of the data: no dtype is read and no mean computed. The thresholds
    0.0, 1.0 and 1.01 raise it on every input; 0.5 never does. *)
Theorem check_mostly_same_validates_thresh (data : Data) (thresh : F64.t) :
  (result (check_mostly_same data thresh) = Raise ValueError <->
   F64.leb thresh F64.zero = true \/ F64.geb thresh F64.one = true) /\
  (result (check_mostly_same data thresh) = Raise ValueError ->
   trace (check_mostly_same data thresh) = []) /\
  check_mostly_same data F64.zero = ([], Raise ValueError) /\
  check_mostly_same data F64.one = ([], Raise ValueError) /\
  check_mostly_same data (F64.decimal 101 2) = ([], Raise ValueError) /\
  result (check_mostly_same data (F64.decimal 5 1)) <> Raise ValueError.
Proof.
  rewrite <- orb_true_iff.
  repeat split; try (rewrite check_mostly_same_run; reflexivity).
  - rewrite check_mostly_same_run.
    destruct (F64.leb thresh F64.zero || F64.geb thresh F64.one);
      [reflexivity |].
    destruct (validated data); discriminate.
  - intros H. rewrite check_mostly_same_run, H. reflexivity.
  - rewrite check_mostly_same_run.
    destruct (F64.leb thresh F64.zero || F64.geb thresh F64.one);
      [reflexivity |].
    destruct (validated data); discriminate.
  - rewrite check_mostly_same_run.
    change (F64.leb (F64.decimal 5 1) F64.zero || F64.geb (F64.decimal 5 1) F64.one)
      with false.
    destruct (validated data); discriminate.
Qed.

Lemma check_mostly_same_validates_thresh_witness :
  trace (check_mostly_same (Column (ObjectSeries ["a"])) (F64.decimal 101 2)) = [].
Proof.
  apply (proj1 (proj2 (check_mostly_same_validates_thresh
                         (Column (ObjectSeries ["a"])) (F64.decimal 101 2)))).
  reflexivity.
Defined.



(** C9. Under a threshold [0 < t <= 0.5] every column with a row is
    flagged by [check_mostly_same], whatever it holds: its mean is a number,
    and [mean >= t] or [mean <= 1 - t] holds of every number, since
    [t <= 0.5 <= 1 - t] also after rounding. *)
Theorem mostly_same_always_below_half (data : Data) (thresh : F64.t) :
  validated data = true ->
  nonempty data = true ->
  well_formed data = true ->
  F64.valid thresh = true ->
  F64.ltb F64.zero thresh = true ->
  F64.leb thresh F64.half = true ->
  exists report,
    result (check_mostly_same data thresh) = Return report /\
    List.length (values (utils.outcome_field report)) = List.length (columns data) /\
    Forall (fun b => b = true) (values (utils.outcome_field report)).
Proof.
  intros Hv Hne Hwf Hvt H0 H1.
  pose proof (valid_thresh_passes thresh (below_half_valid_thresh thresh H0 H1)) as Hp.
  rewrite check_mostly_same_run, Hp, Hv. eexists. split; [reflexivity |].
  cbn [utils.outcome_field]. rewrite per_column_values.
  split; [apply length_map |].
  apply Forall_forall. intros b Hb. apply in_map_iff in Hb as (s & <- & Hs).
  unfold validated, nonempty, well_formed in *.
  rewrite forallb_forall in Hv, Hne, Hwf.
  apply mostly_same_below_half; auto.
  specialize (Hne s Hs). apply negb_true_iff, Nat.eqb_neq in Hne. exact Hne.
Qed.

Lemma mostly_same_always_below_half_witness :
  exists report,
    result (check_mostly_same
              (Frame [("A", IntSeries I64 [0; 1; 0; 1]);
                      ("B", BoolSeries [true; false; false])])
              (F64.decimal 3 1)) = Return report /\
    List.length (values (utils.outcome_field report)) = 2%nat /\
    Forall (fun b => b = true) (values (utils.outcome_field report)).
Proof.
  apply (mostly_same_always_below_half
           (Frame [("A", IntSeries I64 [0; 1; 0; 1]);
                   ("B", BoolSeries [true; false; false])])
           (F64.decimal 3 1)); reflexivity.
Defined.

(** C10. All the same implies mostly the same: on columns of booleans or
    64-bit integers, and under any threshold strictly between 0 and 1,
    whenever the outcome of [check_all_same] for a column is true, so is
    the outcome of [check_mostly_same] for it. *)
Theorem all_same_implies_mostly_same (data : Data) (thresh : F64.t) :
  validated data = true ->
  well_formed data = true ->
  F64.valid thresh = true ->
  valid_thresh thresh = true ->
  exists same mostly,
    result (check_all_same data) = Return same /\
    result (check_mostly_same data thresh) = Return mostly /\
    Forall2 (fun a b => a = true -> b = true)
            (values (utils.outcome_field same))
            (values (utils.outcome_field mostly)).
Proof.
  intros Hv Hwf Hvt Ht.
  rewrite check_all_same_run, check_mostly_same_run.
  rewrite (valid_thresh_passes thresh Ht), Hv.
  eexists _, _. split; [reflexivity |]. split; [reflexivity |].
  cbn [utils.outcome_field]. rewrite !per_column_values.
  unfold validated, well_formed in *. rewrite forallb_forall in Hv, Hwf.
  induction (columns data) as [| s l IH]; cbn [map]; constructor.
  - intros Hs. apply all_same_mostly_same; auto; [apply Hv | apply Hwf]; now left.
  - apply IH; intros x Hx; [apply Hv | apply Hwf]; now right.
Qed.

Lemma all_same_implies_mostly_same_witness :
  exists same mostly,
    result (check_all_same (Column (IntSeries I64 [1; 1; 1]))) = Return same /\
    result (check_mostly_same (Column (IntSeries I64 [1; 1; 1])) default_thresh)
      = Return mostly /\
    Forall2 (fun a b => a = true -> b = true)
            (values (utils.outcome_field same))
            (values (utils.outcome_field mostly)).
Proof.
  apply (all_same_implies_mostly_same
           (Column (IntSeries I64 [1; 1; 1])) default_thresh); reflexivity.
Defined.

(** * Further properties of the code *)

(** ** Outcomes, column by column *)


Lemma outcomes_all_same (data : Data) :
  validated data = true ->
  outcomes (check_all_same data) = Some (map all_same (columns data)).
Proof.
  intros Hv. unfold outcomes. rewrite check_all_same_run, Hv.
  cbn [result snd utils.outcome_field]. now rewrite per_column_values.
Qed.

Lemma outcomes_outside_range (data : Data) :
  validated data = true ->
  outcomes (check_outside_range data) = Some (map outside_range (columns data)).
Proof.
  intros Hv. unfold outcomes. rewrite check_outside_range_run, Hv.
  cbn [result snd utils.outcome_field]. now rewrite per_column_values.
Qed.

Lemma validate_thresh_accepts (thresh : F64.t) :
  result (utils.validate_thresh thresh) = Return tt ->
  F64.leb thresh F64.zero || F64.geb thresh F64.one = false.
Proof.
  rewrite validate_thresh_run. cbn [result snd].
  destruct (F64.leb thresh F64.zero || F64.geb thresh F64.one);
    [discriminate | reflexivity].
Qed.

Lemma outcomes_mostly_same (data : Data) (thresh : F64.t) :
  result (utils.validate_thresh thresh) = Return tt ->
  validated data = true ->
  outcomes (check_mostly_same data thresh) =
  Some (map (mostly_same thresh) (columns data)).
Proof.
  intros Ht Hv. unfold outcomes.
  rewrite check_mostly_same_run, (validate_thresh_accepts _ Ht), Hv.
  cbn [result snd utils.outcome_field]. now rewrite per_column_values.
Qed.

Lemma all_same_elementwise (l : list Z) :
  nan_eqb (list_min l) (list_max l) = true <->
  l <> [] /\ forall x y, In x l -> In y l -> x = y.
Proof.
  split.
  - intros H. apply all_same_constant in H as (c & Hin & Hall). split.
    + intros ->. contradiction.
    + intros x y Hx Hy. rewrite (Hall x Hx), (Hall y Hy). reflexivity.
  - intros [Hne Hall]. destruct l as [| c l]; [contradiction |].
    apply nan_eqb_spec.
    destruct (fold_min_spec l c) as [Hin Hlo], (fold_max_spec l c) as [Hin' Hhi].
    exists (fold_left Z.min l c), (fold_left Z.max l c).
    repeat split; auto.
Qed.

Lemma outside_range_elementwise (l : list Z) :
  nan_ltb (list_min l) (Some 0) || nan_gtb (list_max l) (Some 1) = true <->
  exists x, In x l /\ (x < 0 \/ x > 1).
Proof.
  rewrite outside_spec. split.
  - intros [(lo & [Hin _] & H) | (hi & [Hin _] & H)]; eauto.
  - intros (x & Hin & H). destruct l as [| c l]; [contradiction |].
    pose proof (fold_min_spec l c) as Hmin. pose proof (fold_max_spec l c) as Hmax.
    pose proof (proj2 Hmin x Hin) as Hlo. pose proof (proj2 Hmax x Hin) as Hhi.
    destruct H as [H | H]; [left | right]; eexists; (split; [eassumption |]); lia.
Qed.

(** ** Reordering rows *)

Lemma list_min_Permutation (l l' : list Z) :
  Permutation l l' -> list_min l = list_min l'.
Proof.
  intros HP. destruct (list_min l) as [m |] eqn:E.
  - symmetry. apply list_min_spec. apply list_min_spec in E as [Hin Hle]. split.
    + eapply Permutation_in; eassumption.
    + intros x Hx. apply Hle. eapply Permutation_in; [apply Permutation_sym |]; eassumption.
  - destruct l; [| discriminate]. apply Permutation_nil in HP. now subst.
Qed.

Lemma list_max_Permutation (l l' : list Z) :
  Permutation l l' -> list_max l = list_max l'.
Proof.
  intros HP. destruct (list_max l) as [m |] eqn:E.
  - symmetry. apply list_max_spec. apply list_max_spec in E as [Hin Hle]. split.
    + eapply Permutation_in; eassumption.
    + intros x Hx. apply Hle. eapply Permutation_in; [apply Permutation_sym |]; eassumption.
  - destruct l; [| discriminate]. apply Permutation_nil in HP. now subst.
Qed.

Lemma list_sum_cons (x : Z) (l : list Z) : list_sum (x :: l) = x + list_sum l.
Proof. unfold list_sum. cbn [fold_left]. apply fold_add_shift. Qed.

Lemma list_sum_Permutation (l l' : list Z) :
  Permutation l l' -> list_sum l = list_sum l'.
Proof.
  induction 1 as [| x l l' _ IH | x y l | l l' l'' _ IH1 _ IH2].
  - reflexivity.
  - rewrite !list_sum_cons, IH. reflexivity.
  - rewrite !list_sum_cons. lia.
  - now rewrite IH1.
Qed.

Lemma list_mean_Permutation (l l' : list Z) :
  Permutation l l' -> list_mean l = list_mean l'.
Proof.
  intros HP. destruct l as [| x l].
  - apply Permutation_nil in HP. now subst.
  - destruct l' as [| x' l'].
    + apply Permutation_sym, Permutation_nil in HP. discriminate.
    + unfold list_mean.
      now rewrite (list_sum_Permutation _ _ HP), (Permutation_length HP).
Qed.

(** ** Rounding to nearest even, exactly *)

Lemma iter_pos_nat {A} (f : A -> A) (p : positive) (x : A) :
  iter_pos f p x = Nat.iter (Pos.to_nat p) f x.
Proof.
  revert x. induction p as [p IH | p IH |]; intros x; cbn [iter_pos].
  - rewrite !IH, Pos2Nat.inj_xI.
    replace (S (2 * Pos.to_nat p)) with (Pos.to_nat p + (Pos.to_nat p + 1))%nat by lia.
    rewrite !Nat.iter_add. reflexivity.
  - rewrite !IH, Pos2Nat.inj_xO.
    replace (2 * Pos.to_nat p)%nat with (Pos.to_nat p + Pos.to_nat p)%nat by lia.
    rewrite Nat.iter_add. reflexivity.
  - reflexivity.
Qed.

Lemma shr_1_form (q : Z) (r s : bool) :
  0 <= q ->
  shr_1 {| shr_m := q; shr_r := r; shr_s := s |} =
  {| shr_m := q / 2; shr_r := Z.odd q; shr_s := r || s |}.
Proof.
  intros Hq. destruct q as [| [p | p |] | p]; try lia; cbn [shr_1]; try reflexivity.
  - f_equal. change (Z.pos p~1) with (2 * Z.pos p + 1). apply Z.div_unique with 1; lia.
  - f_equal. change (Z.pos p~0) with (2 * Z.pos p). apply Z.div_unique with 0; lia.
Qed.

(** The record after [n >= 1] shifts of an exact mantissa: the quotient,
    the last bit shifted out, and whether any bit before it was set. *)
Lemma iter_shr_1_exact (m : Z) (n : nat) :
  0 <= m ->
  Nat.iter (S n) shr_1 (shr_record_of_loc m loc_Exact) =
  {| shr_m := m / 2 ^ Z.of_nat (S n);
     shr_r := Z.odd (m / 2 ^ Z.of_nat n);
     shr_s := negb (m mod 2 ^ Z.of_nat n =? 0) |}.
Proof.
  intros Hm. induction n as [| n IH].
  - cbn [Nat.iter shr_record_of_loc]. rewrite shr_1_form by assumption.
    change (2 ^ Z.of_nat 0) with 1.
    rewrite Z.div_1_r, Z.mod_1_r. reflexivity.
  - change (Nat.iter (S (S n)) shr_1 ?x) with (shr_1 (Nat.iter (S n) shr_1 x)).
    rewrite IH. clear IH.
    set (a := Z.of_nat n).
    assert (Ha : 0 <= a) by lia.
    replace (Z.of_nat (S (S n))) with (a + 1 + 1) by lia.
    replace (Z.of_nat (S n)) with (a + 1) by lia.
    assert (Hp : 0 < 2 ^ a) by (apply Z.pow_pos_nonneg; lia).
    assert (E1 : 2 ^ (a + 1) = 2 ^ a * 2) by (rewrite Z.pow_add_r by lia; reflexivity).
    assert (E2 : 2 ^ (a + 1 + 1) = 2 ^ (a + 1) * 2)
      by (rewrite (Z.pow_add_r 2 (a + 1) 1) by lia; reflexivity).
    rewrite shr_1_form by (apply Z.div_pos; lia). f_equal.
    + rewrite E2, Z.div_div by lia. reflexivity.
    + assert (Hmod : m mod 2 ^ (a + 1) = 2 ^ a * ((m / 2 ^ a) mod 2) + m mod 2 ^ a).
      { rewrite E1. rewrite Z.rem_mul_r by lia. lia. }
      rewrite Hmod.
      pose proof (Z.mod_pos_bound m (2 ^ a) Hp) as Hb.
      rewrite (Zodd_mod (m / 2 ^ a)).
      pose proof (Z.mod_pos_bound (m / 2 ^ a) 2 ltac:(lia)) as Hb2.
      destruct (Z.eqb_spec ((m / 2 ^ a) mod 2) 1) as [E | E];
        destruct (Z.eqb_spec (m mod 2 ^ a) 0) as [E' | E']; cbn [orb negb];
        symmetry.
      * apply negb_true_iff, Z.eqb_neq. nia.
      * apply negb_true_iff, Z.eqb_neq. nia.
      * apply negb_false_iff, Z.eqb_eq. assert ((m / 2 ^ a) mod 2 = 0) by lia. nia.
      * apply negb_true_iff, Z.eqb_neq. assert ((m / 2 ^ a) mod 2 = 0) by lia. nia.
Qed.

Lemma mod_pow2_split (m a : Z) :
  0 <= a ->
  m mod 2 ^ (a + 1) = 2 ^ a * ((m / 2 ^ a) mod 2) + m mod 2 ^ a.
Proof.
  intros Ha. assert (Hp : 0 < 2 ^ a) by (apply Z.pow_pos_nonneg; lia).
  rewrite Z.pow_add_r by lia. change (2 ^ 1) with 2.
  rewrite Z.rem_mul_r by lia. lia.
Qed.

(** Shifting an exact mantissa right by [k >= 1] digits and rounding to
    nearest even is [rne]. *)
Lemma shr_rne (m e : Z) (k : positive) :
  0 <= m ->
  let mrs := fst (shr (shr_record_of_loc m loc_Exact) e (Zpos k)) in
  round_nearest_even (shr_m mrs) (loc_of_shr_record mrs) = rne m (Zpos k).
Proof.
  intros Hm. cbn [shr fst]. rewrite iter_pos_nat.
  destruct (Pos2Nat.is_succ k) as [n Hn]. rewrite Hn.
  rewrite iter_shr_1_exact by assumption.
  assert (Hk : Zpos k = Z.of_nat n + 1) by lia.
  replace (Z.of_nat (S n)) with (Zpos k) by lia.
  set (a := Z.of_nat n) in *. assert (Ha : 0 <= a) by lia.
  unfold rne. replace (Z.pos k <=? 0) with false by (symmetry; apply Z.leb_gt; lia).
  rewrite Hk. replace (a + 1 - 1) with a by lia.
  rewrite (mod_pow2_split m a Ha).
  assert (Hp : 0 < 2 ^ a) by (apply Z.pow_pos_nonneg; lia).
  pose proof (Z.mod_pos_bound m (2 ^ a) Hp) as Hb.
  pose proof (Z.mod_pos_bound (m / 2 ^ a) 2 ltac:(lia)) as Hb2.
  rewrite (Zodd_mod (m / 2 ^ a)).
  cbn [shr_m loc_of_shr_record].
  destruct (Z.eqb_spec ((m / 2 ^ a) mod 2) 1) as [E | E];
    destruct (Z.eqb_spec (m mod 2 ^ a) 0) as [E' | E']; cbn [negb round_nearest_even].
  - rewrite E, E'. replace (2 ^ a * 1 + 0) with (2 ^ a) by lia.
    rewrite Z.compare_refl. reflexivity.
  - rewrite E. replace (2 ^ a * 1 + m mod 2 ^ a ?= 2 ^ a) with Gt; [reflexivity |].
    symmetry. apply Z.compare_gt_iff. lia.
  - assert (E0 : (m / 2 ^ a) mod 2 = 0) by lia. rewrite E0, E'.
    replace (2 ^ a * 0 + 0 ?= 2 ^ a) with Lt; [reflexivity |].
    symmetry. apply Z.compare_lt_iff. lia.
  - assert (E0 : (m / 2 ^ a) mod 2 = 0) by lia. rewrite E0.
    replace (2 ^ a * 0 + m mod 2 ^ a ?= 2 ^ a) with Lt; [reflexivity |].
    symmetry. apply Z.compare_lt_iff. lia.
Qed.

Lemma rne_zero (m : Z) : rne m 0 = m.
Proof. reflexivity. Qed.

Lemma rne_bounds (m k : Z) :
  0 <= k -> m / 2 ^ k <= rne m k <= m / 2 ^ k + 1.
Proof.
  intros Hk. unfold rne. destruct (Z.leb_spec k 0) as [Hk0 | Hk0].
  - replace k with 0 by lia. rewrite Z.div_1_r. lia.
  - destruct (m mod 2 ^ k ?= 2 ^ (k - 1)); [destruct (Z.even _) | |]; lia.
Qed.

(** Rounding to nearest even is monotone. *)
Lemma rne_mono (a b k : Z) : 0 <= k -> a <= b -> rne a k <= rne b k.
Proof.
  intros Hk Hab. unfold rne. destruct (Z.leb_spec k 0) as [Hk0 | Hk0]; [assumption |].
  assert (Hp : 0 < 2 ^ k) by (apply Z.pow_pos_nonneg; lia).
  pose proof (Z.div_mod a (2 ^ k) ltac:(lia)) as Ea.
  pose proof (Z.div_mod b (2 ^ k) ltac:(lia)) as Eb.
  pose proof (Z.mod_pos_bound a (2 ^ k) Hp) as Ba.
  pose proof (Z.mod_pos_bound b (2 ^ k) Hp) as Bb.
  pose proof (Z.div_le_mono a b (2 ^ k) Hp Hab) as Hq.
  set (qa := a / 2 ^ k) in *. set (qb := b / 2 ^ k) in *.
  set (ra := a mod 2 ^ k) in *. set (rb := b mod 2 ^ k) in *.
  assert (Hcase : qa < qb \/ (qa = qb /\ ra <= rb)).
  { destruct (Z.lt_ge_cases qa qb) as [| Hge]; [now left |].
    right. assert (qa = qb) by lia. split; [assumption |]. subst qb. nia. }
  destruct Hcase as [Hlt | [Heq Hr]].
  - assert (H1 : match ra ?= 2 ^ (k - 1) with
                 | Eq => if Z.even qa then qa else qa + 1
                 | Lt => qa | Gt => qa + 1 end <= qa + 1)
      by (destruct (ra ?= 2 ^ (k - 1)); [destruct (Z.even qa) | |]; lia).
    assert (H2 : qb <= match rb ?= 2 ^ (k - 1) with
                       | Eq => if Z.even qb then qb else qb + 1
                       | Lt => qb | Gt => qb + 1 end)
      by (destruct (rb ?= 2 ^ (k - 1)); [destruct (Z.even qb) | |]; lia).
    lia.
  - rewrite <- Heq.
    destruct (Z.compare_spec ra (2 ^ (k - 1))), (Z.compare_spec rb (2 ^ (k - 1)));
      destruct (Z.even qa); lia.
Qed.

Lemma compare_mul_r (n m p : Z) : 0 < p -> (n * p ?= m * p) = (n ?= m).
Proof.
  intros Hp. destruct (Z.compare_spec n m) as [-> | H | H].
  - apply Z.compare_refl.
  - apply Z.compare_lt_iff. nia.
  - apply Z.compare_gt_iff. nia.
Qed.

(** The rounding depends on the quotient only: scaling the mantissa and
    the shift together changes nothing. *)
Lemma rne_scale (a j k : Z) :
  0 < k -> 0 <= j -> rne (a * 2 ^ j) (k + j) = rne a k.
Proof.
  intros Hk Hj. unfold rne.
  replace (k + j <=? 0) with false by (symmetry; apply Z.leb_gt; lia).
  replace (k <=? 0) with false by (symmetry; apply Z.leb_gt; lia).
  assert (Hpj : 0 < 2 ^ j) by (apply Z.pow_pos_nonneg; lia).
  assert (Hpk : 0 < 2 ^ k) by (apply Z.pow_pos_nonneg; lia).
  rewrite (Z.pow_add_r 2 k j) by lia.
  rewrite Z.div_mul_cancel_r by lia.
  rewrite Z.mul_mod_distr_r by lia.
  replace (2 ^ (k + j - 1)) with (2 ^ (k - 1) * 2 ^ j)
    by (rewrite <- Z.pow_add_r by lia; f_equal; lia).
  rewrite compare_mul_r by assumption. reflexivity.
Qed.

Lemma rne_exact (a j : Z) : 0 <= j -> rne (a * 2 ^ j) j = a.
Proof.
  intros Hj. unfold rne. destruct (Z.leb_spec j 0) as [H | H].
  - replace j with 0 by lia. lia.
  - assert (Hp : 0 < 2 ^ j) by (apply Z.pow_pos_nonneg; lia).
    rewrite Z.mod_mul, Z.div_mul by lia.
    replace (0 ?= 2 ^ (j - 1)) with Lt; [reflexivity |].
    symmetry. apply Z.compare_lt_iff. apply Z.pow_pos_nonneg; lia.
Qed.

Lemma rne_scale_nonneg (a j k : Z) :
  0 <= k -> 0 <= j -> rne (a * 2 ^ j) (k + j) = rne a k.
Proof.
  intros Hk Hj. destruct (Z.eq_dec k 0) as [-> | Hne].
  - rewrite rne_zero. apply rne_exact. assumption.
  - apply rne_scale; lia.
Qed.

Lemma shr_fexp_rne (m e n : Z) :
  0 < m -> fexp64 (Zdigits2 m + e) - e = n -> 0 <= n ->
  exists mrs,
    shr_fexp 53 1024 m e loc_Exact = (mrs, e + n) /\
    round_nearest_even (shr_m mrs) (loc_of_shr_record mrs) = rne m n.
Proof.
  intros Hm Hn Hn0. unfold shr_fexp. rewrite Hn.
  destruct n as [| k | k]; try lia.
  - cbn [shr]. eexists. split; [f_equal; lia |]. reflexivity.
  - pose proof (shr_rne m e k ltac:(lia)) as H. cbn zeta in H.
    destruct (shr (shr_record_of_loc m loc_Exact) e (Z.pos k)) as [mrs e'] eqn:E.
    assert (e' = e + Z.pos k) by (cbn [shr] in E; congruence). subst e'.
    exists mrs. split; [reflexivity | exact H].
Qed.

Lemma round_mantissa_bounds (p d : Z) :
  2 ^ (d - 1) <= p < 2 ^ d -> 0 < d ->
  2 ^ 52 <= round_mantissa p d <= 2 ^ 53.
Proof.
  intros Hp Hd. unfold round_mantissa. destruct (Z.ltb_spec d 53) as [H | H].
  - assert (E1 : 2 ^ 52 = 2 ^ (d - 1) * 2 ^ (53 - d))
      by (rewrite <- Z.pow_add_r by lia; f_equal; lia).
    assert (E2 : 2 ^ 53 = 2 ^ d * 2 ^ (53 - d))
      by (rewrite <- Z.pow_add_r by lia; f_equal; lia).
    assert (0 < 2 ^ (53 - d)) by (apply Z.pow_pos_nonneg; lia).
    rewrite E1, E2. nia.
  - pose proof (rne_bounds p (d - 53) ltac:(lia)) as Hr.
    pose proof (div_pow2_digits p d (d - 53) ltac:(lia) ltac:(lia) Hp) as Hb.
    replace (d - 1 - (d - 53)) with 52 in Hb by lia.
    replace (d - (d - 53)) with 53 in Hb by lia. lia.
Qed.

Lemma binary_round_aux_rounded (sx : bool) (mx ex d : Z) :
  2 ^ (d - 1) <= mx < 2 ^ d -> 53 <= d ->
  -1021 <= d + ex -> d + ex <= 1023 ->
  binary_round_aux 53 1024 sx mx ex loc_Exact = rounded sx mx d ex.
Proof.
  intros Hmx Hd Hlo Hhi.
  assert (Hpos : 0 < mx).
  { assert (0 < 2 ^ (d - 1)) by (apply Z.pow_pos_nonneg; lia). lia. }
  assert (Hdig : Zdigits2 mx = d).
  { rewrite Zdigits2_log2 by assumption. now apply log2_digits. }
  pose proof (round_mantissa_bounds mx d Hmx ltac:(lia)) as Hm2.
  unfold rounded, round_mantissa in *.
  replace (d <? 53) with false in * by (symmetry; apply Z.ltb_ge; lia).
  unfold binary_round_aux.
  destruct (shr_fexp_rne mx ex (d - 53)) as (mrs1 & E1 & Hm1);
    [assumption | rewrite Hdig, fexp_normal by lia; lia | lia |].
  rewrite E1, Hm1.
  set (m2 := rne mx (d - 53)) in *.
  set (e1 := ex + (d - 53)) in *.
  destruct (Z.ltb_spec m2 (2 ^ 53)) as [Hlt | Hge].
  - assert (Hdig2 : Zdigits2 m2 = 53).
    { rewrite Zdigits2_log2 by lia. apply log2_digits; lia. }
    destruct (shr_fexp_spec m2 e1 loc_Exact 0) as (mrs2 & E2 & Hm3);
      [lia | rewrite Hdig2, fexp_normal by (unfold e1; lia); lia | lia |].
    rewrite E2, Hm3. rewrite Z.div_1_r.
    destruct m2 as [| p | p]; try lia.
    replace (e1 + 0 <=? 1024 - 53) with true by (symmetry; apply Z.leb_le; unfold e1; lia).
    cbn [Z.to_pos]. f_equal. unfold e1. lia.
  - assert (Heq : m2 = 2 ^ 53) by lia.
    assert (Hdig2 : Zdigits2 m2 = 54) by (rewrite Heq; reflexivity).
    destruct (shr_fexp_spec m2 e1 loc_Exact 1) as (mrs2 & E2 & Hm3);
      [lia | rewrite Hdig2, fexp_normal by (unfold e1; lia); lia | lia |].
    rewrite E2, Hm3, Heq.
    change (2 ^ 53 / 2 ^ 1) with (Z.pos 4503599627370496).
    cbv iota beta.
    replace (e1 + 1 <=? 1024 - 53) with true by (symmetry; apply Z.leb_le; unfold e1; lia).
    change (Z.to_pos (2 ^ 52)) with 4503599627370496%positive.
    f_equal. unfold e1. lia.
Qed.

(** Rounding a positive integer mantissa, in the normal range. *)
Lemma binary_round_rounded (sx : bool) (p : positive) (ex d : Z) :
  2 ^ (d - 1) <= Zpos p < 2 ^ d ->
  -1021 <= d + ex -> d + ex <= 1023 ->
  binary_round 53 1024 sx p ex = rounded sx (Zpos p) d ex.
Proof.
  intros Hp Hlo Hhi.
  assert (Hd : 0 < d).
  { destruct (Z.lt_ge_cases 0 d) as [| Hneg]; [assumption |].
    assert (2 ^ d <= 1); [| lia].
    destruct (Z.eq_dec d 0) as [-> |]; [simpl; lia |].
    rewrite Z.pow_neg_r by lia. lia. }
  assert (Hdig : Zpos (digits2_pos p) = d).
  { rewrite digits2_pos_log2. apply log2_digits; [lia | assumption]. }
  unfold binary_round, shl_align. rewrite Hdig, fexp_normal by lia.
  destruct (d + ex - 53 - ex) as [| k | k] eqn:Hk.
  - apply binary_round_aux_rounded; try assumption; lia.
  - apply binary_round_aux_rounded; try assumption; lia.
  - assert (Hk' : Zpos k = 53 - d) by lia.
    assert (Hsh : 2 ^ (53 - 1) <= Zpos (Pos.iter xO p k) < 2 ^ 53).
    { rewrite iter_xO_pow2, Hk'.
      assert (E1 : 2 ^ (53 - 1) = 2 ^ (d - 1) * 2 ^ (53 - d))
        by (rewrite <- Z.pow_add_r by lia; f_equal; lia).
      assert (E2 : 2 ^ 53 = 2 ^ d * 2 ^ (53 - d))
        by (rewrite <- Z.pow_add_r by lia; f_equal; lia).
      assert (0 < 2 ^ (53 - d)) by (apply Z.pow_pos_nonneg; lia).
      rewrite E1, E2. split.
      * apply Z.mul_le_mono_pos_r; lia.
      * apply Z.mul_lt_mono_pos_r; lia. }
    rewrite (binary_round_aux_rounded sx _ (d + ex - 53) 53) by (try assumption; lia).
    unfold rounded, round_mantissa.
    replace (53 <? 53) with false by reflexivity.
    replace (d <? 53) with true by (symmetry; apply Z.ltb_lt; lia).
    rewrite Z.sub_diag, rne_zero. rewrite iter_xO_pow2, Hk'.
    rewrite iter_xO_pow2, Hk' in Hsh.
    replace (Z.pos p * 2 ^ (53 - d) <? 2 ^ 53) with true
      by (symmetry; apply Z.ltb_lt; lia).
    f_equal. lia.
Qed.

Lemma round_mantissa_mono (p d p' j : Z) :
  0 < d -> 0 <= j -> 0 <= p -> p * 2 ^ j <= p' ->
  round_mantissa p d <= round_mantissa p' (d + j).
Proof.
  intros Hd Hj Hp Hle. unfold round_mantissa.
  assert (Hpj : 0 < 2 ^ j) by (apply Z.pow_pos_nonneg; lia).
  destruct (Z.ltb_spec d 53) as [H | H]; destruct (Z.ltb_spec (d + j) 53) as [H' | H'];
    try lia.
  - replace (2 ^ (53 - d)) with (2 ^ j * 2 ^ (53 - (d + j)))
      by (rewrite <- Z.pow_add_r by lia; f_equal; lia).
    assert (0 < 2 ^ (53 - (d + j))) by (apply Z.pow_pos_nonneg; lia). nia.
  - transitivity (rne (p * 2 ^ j) (d + j - 53)); [| apply rne_mono; lia].
    replace (p * 2 ^ j) with (p * 2 ^ (53 - d) * 2 ^ (d + j - 53)).
    + rewrite rne_exact by lia. lia.
    + rewrite <- Z.mul_assoc, <- Z.pow_add_r by lia. do 2 f_equal. lia.
  - transitivity (rne (p * 2 ^ j) (d + j - 53)); [| apply rne_mono; lia].
    replace (d + j - 53) with (d - 53 + j) by lia.
    rewrite rne_scale_nonneg by lia. lia.
Qed.

(** Rounding is monotone: of two positive numbers [p * 2^ex <= p' * 2^ex'],
    the first rounds to no more than the second. *)
Lemma rounded_le (p d ex p' d' ex' : Z) :
  2 ^ (d - 1) <= p < 2 ^ d -> 0 < d ->
  2 ^ (d' - 1) <= p' < 2 ^ d' -> 0 < d' ->
  ex' <= ex -> p * 2 ^ (ex - ex') <= p' ->
  SFleb (rounded false p d ex) (rounded false p' d' ex') = true.
Proof.
  intros Hp Hd Hp' Hd' Hex Hle.
  set (j := ex - ex') in *. assert (Hj : 0 <= j) by lia.
  assert (Hdd : d + j <= d').
  { apply Z.lt_succ_r. apply (Z.pow_lt_mono_r_iff 2); [lia | lia |].
    replace (Z.succ d') with (d' + 1) by lia.
    assert (E : 2 ^ (d + j) = 2 * (2 ^ (d - 1) * 2 ^ j)).
    { rewrite <- Z.pow_add_r, <- Z.pow_succ_r by lia. f_equal. lia. }
    assert (E' : 2 ^ (d' + 1) = 2 * 2 ^ d') by (rewrite Z.pow_add_r by lia; lia).
    assert (0 < 2 ^ j) by (apply Z.pow_pos_nonneg; lia).
    rewrite E, E'. nia. }
  pose proof (round_mantissa_bounds p d Hp Hd) as Hm.
  pose proof (round_mantissa_bounds p' d' Hp' Hd') as Hm'.
  assert (Hmono : d + j = d' -> round_mantissa p d <= round_mantissa p' d').
  { assert (0 < 2 ^ (d - 1)) by (apply Z.pow_pos_nonneg; lia).
    intros <-. apply round_mantissa_mono; lia. }
  unfold rounded.
  destruct (Z.ltb_spec (round_mantissa p d) (2 ^ 53)) as [H | H];
    destruct (Z.ltb_spec (round_mantissa p' d') (2 ^ 53)) as [H' | H'];
    apply leb_finite_pos; rewrite ?Z2Pos.id by lia; lia.
Qed.

(** ** Monotone conversions *)

Lemma of_Z_rounded (z d : Z) :
  0 < z -> 2 ^ (d - 1) <= z < 2 ^ d -> d <= 1023 ->
  F64.of_Z z = rounded false z d 0.
Proof.
  intros Hz Hd Hb. destruct z as [| p | p]; try lia.
  assert (Hd0 : 0 < d).
  { destruct (Z.lt_ge_cases 0 d) as [| Hneg]; [assumption |].
    assert (2 ^ d <= 1); [| lia].
    destruct (Z.eq_dec d 0) as [-> |]; [simpl; lia |].
    rewrite Z.pow_neg_r by lia. lia. }
  unfold F64.of_Z, binary_normalize, F64.prec, F64.emax.
  apply binary_round_rounded; [assumption | lia | lia].
Qed.

(** Conversion of positive integers to float64 is monotone. *)
Lemma of_Z_mono (a b : Z) :
  0 < a -> a <= b -> b < 2 ^ 1023 ->
  SFleb (F64.of_Z a) (F64.of_Z b) = true.
Proof.
  intros Ha Hab Hb.
  destruct (digits_exist a 1023) as (da & Hda & Hda'); try lia.
  destruct (digits_exist b 1023) as (db & Hdb & Hdb'); try lia.
  rewrite (of_Z_rounded a da), (of_Z_rounded b db) by lia.
  apply rounded_le; try assumption; lia.
Qed.

(** ** Monotone subtraction from one *)

Lemma valid_exponent (s : bool) (m : positive) (e : Z) :
  valid_binary 53 1024 (S754_finite s m e) = true ->
  -1074 <= e /\ (-1074 < e -> 2 ^ 52 <= Zpos m).
Proof.
  unfold valid_binary, bounded, canonical_mantissa. intros H.
  apply andb_true_iff in H as [H _]. apply Z.eqb_eq in H.
  rewrite digits2_pos_log2 in H. unfold fexp, emin in H.
  split; [lia |]. intros He.
  assert (Hd : Z.log2 (Zpos m) + 1 = 53) by lia.
  apply log2_digits in Hd; [| lia]. simpl in Hd. simpl. lia.
Qed.

(** A float64 strictly between 0 and 1, and what [1 - t] is. *)
Lemma sub_one_rounded (t : spec_float) :
  valid_binary 53 1024 t = true ->
  SFltb F64.zero t = true -> SFltb t F64.one = true ->
  exists m e d,
    t = S754_finite false m e /\
    -1074 <= e <= -53 /\ Zpos m < 2 ^ 53 /\
    (-1074 < e -> 2 ^ 52 <= Zpos m) /\
    2 ^ (d - 1) <= 2 ^ (- e) - Zpos m < 2 ^ d /\ 0 < d /\
    F64.sub F64.one t = rounded false (2 ^ (- e) - Zpos m) d e.
Proof.
  intros Hv H0 H1. destruct (positive_finite t H0 H1) as (m & e & -> & He).
  pose proof (valid_mantissa _ _ _ Hv) as Hm.
  destruct (valid_exponent _ _ _ Hv) as [Hlo Hnorm].
  assert (He' : e <= -53).
  { destruct He as [He | [-> Hlt]]; [lia |].
    specialize (Hnorm ltac:(lia)). lia. }
  assert (Hpow : 2 ^ 53 <= 2 ^ (- e)) by (apply Z.pow_le_mono_r; lia).
  destruct (sub_one_finite m e) as (p & Hp & E); [lia | lia |].
  (* 1 - t is at least 2^-53 *)
  assert (HD : 2 ^ (- e - 53) <= Zpos p).
  { rewrite Hp.
    assert (E2 : 2 ^ (- e) = 2 ^ (- e - 53) * 2 ^ 53)
      by (rewrite <- Z.pow_add_r by lia; f_equal; lia).
    assert (1 <= 2 ^ (- e - 53)) by (apply (Z.pow_le_mono_r 2 0); lia).
    rewrite E2. nia. }
  destruct (digits_exist (Zpos p) (- e)) as (d & Hd & Hd'); try lia.
  assert (Hdlo : - e - 53 < d).
  { apply (Z.pow_lt_mono_r_iff 2); lia. }
  exists m, e, d. rewrite <- Hp.
  repeat split; try lia; try assumption.
  rewrite E. apply binary_round_rounded; [assumption | lia | lia].
Qed.

(** A larger threshold leaves a smaller [1 - t], rounding included. *)
Lemma sub_one_antitone (t t' : spec_float) :
  valid_binary 53 1024 t = true -> valid_binary 53 1024 t' = true ->
  SFltb F64.zero t' = true -> SFleb t' t = true -> SFltb t F64.one = true ->
  SFleb (F64.sub F64.one t) (F64.sub F64.one t') = true.
Proof.
  intros Hv Hv' H0' Hle H1.
  assert (H0 : SFltb F64.zero t = true /\ SFltb t' F64.one = true).
  { rewrite one_eq in *.
    destruct t' as [s' | s' | | s' m' e']; try discriminate;
      destruct s'; try discriminate;
      destruct t as [s | s | | s m e]; try discriminate;
      destruct s; try discriminate.
    split; [reflexivity |].
    apply ltb_finite_pos in H1. apply leb_finite_pos in Hle.
    apply ltb_finite_pos. lia. }
  destruct H0 as [H0 H1'].
  destruct (sub_one_rounded t Hv H0 H1)
    as (m & e & d & -> & He & Hm & Hn & Hd & Hd0 & ->).
  destruct (sub_one_rounded t' Hv' H0' H1')
    as (m' & e' & d' & -> & He' & Hm' & Hn' & Hd' & Hd0' & ->).
  apply leb_finite_pos in Hle.
  apply rounded_le; try assumption; try lia.
  assert (Hp : 0 < 2 ^ (e - e')) by (apply Z.pow_pos_nonneg; lia).
  assert (E : 2 ^ (- e) * 2 ^ (e - e') = 2 ^ (- e'))
    by (rewrite <- Z.pow_add_r by lia; f_equal; lia).
  assert (Hmm : Zpos m' <= Zpos m * 2 ^ (e - e')).
  { destruct Hle as [Hlt | [-> Hmm]].
    - specialize (Hn ltac:(lia)).
      assert (2 <= 2 ^ (e - e')) by (apply (Z.pow_le_mono_r 2 1); lia).
      simpl in Hn, Hm'. nia.
    - rewrite Z.sub_diag. change (2 ^ 0) with 1. lia. }
  nia.
Qed.

Lemma rounded_finite (sx : bool) (p d ex : Z) :
  exists m e, rounded sx p d ex = S754_finite sx m e.
Proof. unfold rounded. destruct (_ <? _); eexists _, _; reflexivity. Qed.

Lemma leb_trans_finite_r (x : spec_float) (m1 m2 : positive) (e1 e2 : Z) :
  SFleb x (S754_finite false m1 e1) = true ->
  SFleb (S754_finite false m1 e1) (S754_finite false m2 e2) = true ->
  SFleb x (S754_finite false m2 e2) = true.
Proof.
  intros H1 H2. destruct x as [s | s | | s m e]; try discriminate.
  - reflexivity.
  - destruct s; [reflexivity | discriminate].
  - destruct s; [reflexivity |].
    apply leb_finite_pos in H1, H2. apply leb_finite_pos. lia.
Qed.

Lemma leb_trans_finite_l (x : spec_float) (m1 m2 : positive) (e1 e2 : Z) :
  SFleb (S754_finite false m1 e1) (S754_finite false m2 e2) = true ->
  SFleb (S754_finite false m2 e2) x = true ->
  SFleb (S754_finite false m1 e1) x = true.
Proof.
  intros H1 H2. destruct x as [s | s | | s m e]; try discriminate.
  - destruct s; [discriminate | reflexivity].
  - destruct s; [discriminate |].
    apply leb_finite_pos in H1, H2. apply leb_finite_pos. lia.
Qed.

(** A column flagged under a threshold is flagged under every lower one. *)
Lemma mostly_same_antitone (s : Series) (t t' : F64.t) :
  F64.valid t = true -> F64.valid t' = true ->
  F64.ltb F64.zero t' = true -> F64.leb t' t = true -> F64.ltb t F64.one = true ->
  mostly_same t s = true -> mostly_same t' s = true.
Proof.
  intros Hv Hv' H0' Hle H1. unfold mostly_same, F64.geb, F64.leb.
  pose proof (sub_one_antitone t t' Hv Hv' H0' Hle H1) as Hsub.
  assert (Hfin : exists m e m' e',
             t = S754_finite false m e /\ t' = S754_finite false m' e').
  { unfold F64.ltb, F64.leb in *. rewrite one_eq in *.
    destruct t' as [s' | s' | | s' m' e']; try discriminate;
      destruct s'; try discriminate;
      destruct t as [s0 | s0 | | s0 m e]; try discriminate;
      destruct s0; try discriminate.
    now exists m, e, m', e'. }
  destruct Hfin as (m & e & m' & e' & Et & Et').
  assert (Hsubfin : exists a b a' b',
             F64.sub F64.one t = S754_finite false a b /\
             F64.sub F64.one t' = S754_finite false a' b').
  { assert (H0 : SFltb F64.zero t = true /\ SFltb t' F64.one = true).
    { unfold F64.ltb, F64.leb in *. subst t t'. rewrite one_eq in *.
      split; [reflexivity |].
      apply ltb_finite_pos in H1. apply leb_finite_pos in Hle.
      apply ltb_finite_pos. lia. }
    destruct H0 as [H0 H1'].
    destruct (sub_one_rounded t Hv H0 H1)
      as (m1 & e1 & d1 & _ & _ & _ & _ & _ & _ & ->).
    destruct (sub_one_rounded t' Hv' H0' H1')
      as (m2 & e2 & d2 & _ & _ & _ & _ & _ & _ & ->).
    destruct (rounded_finite false (2 ^ (- e1) - Z.pos m1) d1 e1) as (a & b & ->).
    destruct (rounded_finite false (2 ^ (- e2) - Z.pos m2) d2 e2) as (a' & b' & ->).
    now exists a, b, a', b'. }
  destruct Hsubfin as (a & b & a' & b' & Es & Es').
  rewrite Es, Es' in *. unfold F64.leb in Hle. subst t t'.
  intros H. apply orb_true_iff in H as [H | H]; apply orb_true_iff; [left | right].
  - eapply leb_trans_finite_l; eassumption.
  - eapply leb_trans_finite_r; eassumption.
Qed.

(** ** Bounds on the mean *)

Lemma list_sum_ge (l : list Z) (c : Z) :
  (forall x, In x l -> c <= x) -> Z.of_nat (List.length l) * c <= list_sum l.
Proof.
  induction l as [| x l IH]; intros H; [reflexivity |].
  rewrite list_sum_cons. cbn [List.length].
  specialize (IH (fun y Hy => H y (or_intror Hy))).
  specialize (H x (or_introl eq_refl)). lia.
Qed.

Lemma list_sum_le (l : list Z) (c : Z) :
  (forall x, In x l -> x <= c) -> list_sum l <= Z.of_nat (List.length l) * c.
Proof.
  induction l as [| x l IH]; intros H; [reflexivity |].
  rewrite list_sum_cons. cbn [List.length].
  specialize (IH (fun y Hy => H y (or_intror Hy))).
  specialize (H x (or_introl eq_refl)). lia.
Qed.

(** The mean of a column whose values are all at least 1 is at least 1. *)
Lemma list_mean_ge_one (l : list Z) :
  l <> [] -> int64_bounded l = true -> (forall x, In x l -> 1 <= x) ->
  SFleb F64.one (list_mean l) = true.
Proof.
  intros Hne Hwf Hall. destruct l as [| x0 l0]; [contradiction |].
  unfold list_mean. set (l := x0 :: l0) in *.
  set (n := Z.of_nat (List.length l)).
  assert (Hn : 0 < n) by (unfold n, l; simpl; lia).
  pose proof (int64_bounded_length _ Hwf) as Hlen. fold n in Hlen.
  pose proof (list_sum_ge l 1 Hall) as Hlo. fold n in Hlo.
  assert (Hhi : list_sum l <= n * 2 ^ 63).
  { apply list_sum_le. intros x Hx. pose proof (int64_bounded_In _ x Hwf Hx). lia. }
  assert (Hs : list_sum l < 2 ^ 126).
  { change (2 ^ 126) with (2 ^ 63 * 2 ^ 63). nia. }
  destruct (of_Z_count n) as (d2 & m2 & e2 & Hd2 & Hd2' & E2 & Hm2 & He2); try lia.
  destruct (digits_exist (list_sum l) 126) as (d1 & Hd1 & Hd1'); try lia.
  destruct (of_Z_pos (list_sum l) d1) as (m1 & e1 & E1 & Hm1 & He1); try lia.
  pose proof (of_Z_mono n (list_sum l) Hn ltac:(lia)) as Hmono.
  rewrite E1, E2 in *.
  apply leb_finite_pos in Hmono;
    [| eapply Z.lt_le_trans; [exact Hs | apply Z.pow_le_mono_r; lia]].
  apply div_ge_one; try assumption; lia.
Qed.

(** The mean of a column whose values are all at most 0 is zero or
    negative. *)
Lemma list_mean_nonpos (l : list Z) :
  l <> [] -> int64_bounded l = true -> (forall x, In x l -> x <= 0) ->
  list_mean l = S754_zero false \/ F64.signed true (list_mean l).
Proof.
  intros Hne Hwf Hall. destruct l as [| x0 l0]; [contradiction |].
  unfold list_mean. set (l := x0 :: l0) in *.
  set (n := Z.of_nat (List.length l)).
  assert (Hn : 0 < n) by (unfold n, l; simpl; lia).
  pose proof (int64_bounded_length _ Hwf) as Hlen. fold n in Hlen.
  pose proof (list_sum_le l 0 Hall) as Hhi.
  destruct (of_Z_count n) as (d2 & m2 & e2 & _ & _ & E2 & _); try lia.
  rewrite E2. destruct (Z.eq_dec (list_sum l) 0) as [-> | Hne0].
  - left. reflexivity.
  - right. apply div_signed, of_Z_neg. lia.
Qed.

Lemma SFdiv_core_same (m : positive) (e : Z) :
  2 ^ 52 <= Zpos m < 2 ^ 53 ->
  SFdiv_core_binary 53 1024 (Zpos m) e (Zpos m) e = (2 ^ 53, -53, loc_Exact).
Proof.
  intros Hm. unfold SFdiv_core_binary.
  rewrite !Zdigits2_log2 by lia.
  rewrite (proj2 (log2_digits (Zpos m) 53 ltac:(lia))) by assumption.
  replace (53 + e - (53 + e)) with 0 by lia.
  rewrite Z.sub_diag. change (Z.min (fexp64 0) 0) with (-53).
  change (0 - -53) with 53. cbv iota. rewrite Z.shiftl_mul_pow2 by lia.
  rewrite (Z.mul_comm (Zpos m)).
  assert (Hq : fst (Z.div_eucl (2 ^ 53 * Zpos m) (Zpos m)) = 2 ^ 53)
    by (change (fst (Z.div_eucl ?a ?b)) with (a / b); apply Z.div_mul; lia).
  assert (Hr : snd (Z.div_eucl (2 ^ 53 * Zpos m) (Zpos m)) = 0)
    by (change (snd (Z.div_eucl ?a ?b)) with (a mod b); apply Z.mod_mul; lia).
  destruct (Z.div_eucl (2 ^ 53 * Zpos m) (Zpos m)) as [q r].
  cbn [fst snd] in Hq, Hr. subst q r.
  f_equal. unfold new_location, new_location_even, new_location_odd.
  destruct (Z.even (Zpos m)); reflexivity.
Qed.

(** The quotient of two positive normal numbers is at most one when the
    dividend is at most the divisor. *)
Lemma div_le_one (m1 m2 : positive) (e1 e2 : Z) :
  2 ^ 52 <= Zpos m1 < 2 ^ 53 -> 2 ^ 52 <= Zpos m2 < 2 ^ 53 ->
  e1 < e2 \/ (e1 = e2 /\ Zpos m1 <= Zpos m2) ->
  -1000 <= e1 - e2 ->
  SFleb (F64.div (S754_finite false m1 e1) (S754_finite false m2 e2)) F64.one = true.
Proof.
  intros H1 H2 Hle Hlo. unfold F64.div, SFdiv, F64.prec, F64.emax.
  destruct (Z.eq_dec e1 e2) as [-> | Hne].
  - destruct (Pos.eq_dec m1 m2) as [-> | Hnm].
    + rewrite SFdiv_core_same by assumption. reflexivity.
    + assert (Hlt : Zpos m1 < Zpos m2).
      { destruct Hle as [| [_ Hle]]; [lia |].
        assert (Zpos m1 <> Zpos m2) by congruence. lia. }
      destruct (SFdiv_core_normal m1 m2 e2 e2 H1 H2 ltac:(lia)) as [l ->].
      cbn [xorb]. set (q := Zpos m1 * 2 ^ 53 / Zpos m2).
      assert (Hq : 2 ^ 52 <= q < 2 ^ 53).
      { unfold q. split.
        - apply Z.div_le_lower_bound; [lia |]. nia.
        - apply Z.div_lt_upper_bound; [lia |]. nia. }
      destruct (binary_round_aux_normal false q (e2 - e2 - 53) l 53)
        as (m & e & -> & Hm & He); try lia.
      rewrite one_eq. apply leb_finite_pos. simpl in Hm. lia.
  - destruct (SFdiv_core_normal m1 m2 e1 e2 H1 H2 ltac:(lia)) as [l ->].
    cbn [xorb]. set (q := Zpos m1 * 2 ^ 53 / Zpos m2).
    assert (Hq : 2 ^ 52 <= q < 2 ^ 54).
    { unfold q. split.
      - apply Z.div_le_lower_bound; [lia |]. nia.
      - apply Z.div_lt_upper_bound; [lia |]. nia. }
    rewrite one_eq.
    destruct (Z.lt_ge_cases q (2 ^ 53)) as [Hlt | Hge].
    + destruct (binary_round_aux_normal false q (e1 - e2 - 53) l 53)
        as (m & e & -> & Hm & He); try lia.
      apply leb_finite_pos. simpl in Hm. lia.
    + destruct (binary_round_aux_normal false q (e1 - e2 - 53) l 54)
        as (m & e & -> & Hm & He); try lia.
      apply leb_finite_pos. simpl in Hm. lia.
Qed.

Lemma zeros_and_ones_In (l : list Z) (x : Z) :
  zeros_and_ones l = true -> In x l -> 0 <= x <= 1.
Proof.
  unfold zeros_and_ones. rewrite forallb_forall. intros H Hin.
  specialize (H x Hin). apply orb_true_iff in H as [H | H];
    apply Z.eqb_eq in H; lia.
Qed.

(** The mean of a column of zeros and ones is a proportion: between 0.0
    and 1.0, both included. *)
Lemma list_mean_unit_interval (l : list Z) :
  l <> [] -> Z.of_nat (List.length l) < 2 ^ 63 -> zeros_and_ones l = true ->
  SFleb F64.zero (list_mean l) = true /\ SFleb (list_mean l) F64.one = true.
Proof.
  intros Hne Hlen H01. destruct l as [| x0 l0]; [contradiction |].
  unfold list_mean. set (l := x0 :: l0) in *.
  set (n := Z.of_nat (List.length l)) in *.
  assert (Hn : 0 < n) by (unfold n, l; simpl; lia).
  pose proof (list_sum_ge l 0 (fun x Hx => proj1 (zeros_and_ones_In l x H01 Hx))) as Hlo.
  pose proof (list_sum_le l 1 (fun x Hx => proj2 (zeros_and_ones_In l x H01 Hx))) as Hhi.
  fold n in Hlo, Hhi.
  destruct (of_Z_count n) as (d2 & m2 & e2 & Hd2 & Hd2' & E2 & Hm2 & He2); try lia.
  destruct (Z.eq_dec (list_sum l) 0) as [-> | Hne0].
  - rewrite E2. split; reflexivity.
  - destruct (of_Z_count (list_sum l)) as (d1 & m1 & e1 & Hd1 & Hd1' & E1 & Hm1 & He1);
      try lia.
    pose proof (of_Z_mono (list_sum l) n ltac:(lia) ltac:(lia)) as Hmono.
    rewrite E1, E2 in *.
    apply leb_finite_pos in Hmono;
      [| eapply Z.lt_le_trans; [exact Hlen | apply Z.pow_le_mono_r; lia]].
    split.
    + apply leb_signed; [now left |].
      apply (div_signed false (S754_finite false m1 e1)). reflexivity.
    + apply div_le_one; try assumption; lia.
Qed.

(** ** What the code shows beyond the specification *)



(** X2. A table passes [validate_binary_dtype] exactly when each of its columns
    passes it on its own. *)
Theorem table_valid_iff_columns_valid (df : DataFrame) :
  result (validate_binary_dtype (Frame df)) = Return tt <->
  forall n s, In (n, s) df -> result (validate_binary_dtype (Column s)) = Return tt.
Proof.
  assert (Hret : forall data,
            result (validate_binary_dtype data) = Return tt <-> validated data = true).
  { intros data. rewrite validate_binary_dtype_run. cbn [result snd].
    destruct (validated data); split; intros H; try discriminate; reflexivity. }
  rewrite Hret. unfold validated at 1. cbn [columns]. rewrite forallb_forall. split.
  - intros H n s Hin. apply Hret. unfold validated. cbn [columns forallb].
    rewrite andb_true_r. apply H. apply in_map_iff. now exists (n, s).
  - intros H s Hin. apply in_map_iff in Hin as ([n s'] & <- & Hin).
    specialize (H n s' Hin). apply Hret in H. unfold validated in H.
    cbn [columns forallb] in H. now rewrite andb_true_r in H.
Qed.

Lemma table_valid_iff_columns_valid_witness :
  result (validate_binary_dtype (Column (BoolSeries [true; false]))) = Return tt.
Proof.
  apply (proj1 (table_valid_iff_columns_valid
                  [("A", IntSeries I64 [0; 1]); ("B", BoolSeries [true; false])])
               eq_refl "B" (BoolSeries [true; false])).
  simpl. right. left. reflexivity.
Defined.

(** X3. [check_all_same] flags exactly the constant columns: its outcome for a
    validated column is true when and only when the column has a row and
    any two of its values are equal. *)
Theorem all_same_iff_constant (data : Data) :
  validated data = true ->
  exists bs,
    outcomes (check_all_same data) = Some bs /\
    Forall2 (fun s b =>
               b = true <->
               size s <> 0%nat /\
               forall x y, In x (numeric s) -> In y (numeric s) -> x = y)
            (columns data) bs.
Proof.
  intros Hv. rewrite outcomes_all_same by assumption.
  eexists. split; [reflexivity |]. apply Forall2_map_same. intros s Hs.
  unfold validated in Hv. rewrite forallb_forall in Hv.
  unfold all_same. rewrite all_same_elementwise.
  rewrite <- (numeric_size s) by auto.
  split; intros [Hne Hall]; (split; [| exact Hall]).
  - intros E. apply length_zero_iff_nil in E. contradiction.
  - intros E. apply Hne. now rewrite E.
Qed.

Lemma all_same_iff_constant_witness :
  exists bs,
    outcomes (check_all_same (Column (IntSeries I64 [2; 2; 2]))) = Some bs /\
    Forall2 (fun s b =>
               b = true <->
               size s <> 0%nat /\
               forall x y, In x (numeric s) -> In y (numeric s) -> x = y)
            [IntSeries I64 [2; 2; 2]] bs.
Proof.
  apply (all_same_iff_constant (Column (IntSeries I64 [2; 2; 2]))). reflexivity.
Defined.

(** X4. [check_outside_range] flags exactly the columns that hold a value below
    0 or above 1; a column of booleans is never flagged. *)
Theorem outside_range_iff_some_value (data : Data) :
  validated data = true ->
  exists bs,
    outcomes (check_outside_range data) = Some bs /\
    Forall2 (fun s b =>
               (b = true <-> exists x, In x (numeric s) /\ (x < 0 \/ x > 1)) /\
               (dtypes s = Np.bool_ -> b = false))
            (columns data) bs.
Proof.
  intros Hv. rewrite outcomes_outside_range by assumption.
  eexists. split; [reflexivity |]. apply Forall2_map_same. intros s Hs.
  unfold outside_range. split; [apply outside_range_elementwise |].
  intros Hb. apply not_true_is_false. rewrite outside_range_elementwise.
  intros (x & Hin & Hx). destruct s as [l | k l | k l | l]; try discriminate.
  - cbn [numeric] in Hin. apply in_map_iff in Hin as (b & <- & _).
    destruct b; simpl in Hx; lia.
  - destruct k; discriminate.
  - destruct k; discriminate.
Qed.

Lemma outside_range_iff_some_value_witness :
  exists bs,
    outcomes (check_outside_range
                (Frame [("A", IntSeries I64 [0; -1]); ("B", BoolSeries [true])]))
      = Some bs /\
    Forall2 (fun s b =>
               (b = true <-> exists x, In x (numeric s) /\ (x < 0 \/ x > 1)) /\
               (dtypes s = Np.bool_ -> b = false))
            [IntSeries I64 [0; -1]; BoolSeries [true]] bs.
Proof.
  apply (outside_range_iff_some_value
           (Frame [("A", IntSeries I64 [0; -1]); ("B", BoolSeries [true])])).
  reflexivity.
Defined.

(** X5. A column without rows is flagged by no check: its minimum, maximum and
    mean are NaN, and every comparison with NaN is false. *)
Theorem empty_column_never_flagged (data : Data) (thresh : F64.t) :
  validated data = true ->
  result (utils.validate_thresh thresh) = Return tt ->
  exists same mostly outside,
    outcomes (check_all_same data) = Some same /\
    outcomes (check_mostly_same data thresh) = Some mostly /\
    outcomes (check_outside_range data) = Some outside /\
    Forall2 (fun s b => size s = 0%nat -> b = false) (columns data) same /\
    Forall2 (fun s b => size s = 0%nat -> b = false) (columns data) mostly /\
    Forall2 (fun s b => size s = 0%nat -> b = false) (columns data) outside.
Proof.
  intros Hv Ht.
  rewrite outcomes_all_same, outcomes_mostly_same, outcomes_outside_range
    by assumption.
  eexists _, _, _. repeat (split; [reflexivity |]).
  unfold validated in Hv. rewrite forallb_forall in Hv.
  assert (Hnil : forall s, In s (columns data) -> size s = 0%nat -> numeric s = []).
  { intros s Hs E. apply length_zero_iff_nil. now rewrite numeric_size by auto. }
  repeat split; apply Forall2_map_same; intros s Hs E;
    unfold all_same, mostly_same, outside_range, mean;
    rewrite (Hnil s Hs E); try reflexivity.
  cbn [list_mean]. unfold F64.geb, F64.leb, F64.nan.
  destruct thresh; reflexivity.
Qed.

Lemma empty_column_never_flagged_witness :
  exists same mostly outside,
    outcomes (check_all_same (Column (IntSeries I64 []))) = Some same /\
    outcomes (check_mostly_same (Column (IntSeries I64 [])) default_thresh)
      = Some mostly /\
    outcomes (check_outside_range (Column (IntSeries I64 []))) = Some outside /\
    Forall2 (fun s b => size s = 0%nat -> b = false) [IntSeries I64 []] same /\
    Forall2 (fun s b => size s = 0%nat -> b = false) [IntSeries I64 []] mostly /\
    Forall2 (fun s b => size s = 0%nat -> b = false) [IntSeries I64 []] outside.
Proof.
  apply (empty_column_never_flagged (Column (IntSeries I64 [])) default_thresh);
    reflexivity.
Defined.

(** X6. The order of the rows does not matter: two columns of the same dtype
    that hold the same values in another order get the same answer, report
    or exception, from [check_all_same] and [check_outside_range], and, when
    the values are zeros and ones, from [check_mostly_same]. *)
Theorem row_order_irrelevant (s s' : Series) :
  dtypes s = dtypes s' ->
  Permutation (numeric s) (numeric s') ->
  check_all_same (Column s) = check_all_same (Column s') /\
  check_outside_range (Column s) = check_outside_range (Column s') /\
  (zeros_and_ones (numeric s) = true ->
   forall thresh,
     check_mostly_same (Column s) thresh = check_mostly_same (Column s') thresh).
Proof.
  intros Hd HP.
  assert (Hv : validated (Column s) = validated (Column s')).
  { unfold validated, binary_dtype. cbn [columns forallb]. now rewrite Hd. }
  rewrite !check_all_same_run, !check_outside_range_run, Hv.
  cbn [per_column]. unfold all_same, outside_range.
  rewrite (list_min_Permutation _ _ HP), (list_max_Permutation _ _ HP).
  repeat split. intros _ thresh.
  rewrite !check_mostly_same_run, Hv. cbn [per_column].
  unfold mostly_same, mean. now rewrite (list_mean_Permutation _ _ HP).
Qed.

Lemma row_order_irrelevant_witness :
  check_all_same (Column (IntSeries I64 [0; 1; 1])) =
  check_all_same (Column (IntSeries I64 [1; 0; 1])).
Proof.
  apply (proj1 (row_order_irrelevant
                  (IntSeries I64 [0; 1; 1]) (IntSeries I64 [1; 0; 1])
                  eq_refl (perm_swap 1 0 [1]))).
Defined.

Lemma valid_thresh_accepted (thresh : F64.t) :
  valid_thresh thresh = true -> result (utils.validate_thresh thresh) = Return tt.
Proof.
  intros H. rewrite validate_thresh_run, (valid_thresh_passes thresh H). reflexivity.
Qed.

Lemma le_below_one (t t' : F64.t) :
  F64.ltb F64.zero t' = true -> F64.leb t' t = true -> F64.ltb t F64.one = true ->
  valid_thresh t = true /\ valid_thresh t' = true.
Proof.
  intros H0' Hle H1. unfold valid_thresh. rewrite H0', H1.
  unfold F64.ltb, F64.leb in *. rewrite one_eq in *.
  destruct t' as [s' | s' | | s' m' e']; try discriminate;
    destruct s'; try discriminate;
    destruct t as [s | s | | s m e]; try discriminate;
    destruct s; try discriminate.
  split; [reflexivity |]. cbn [andb].
  apply ltb_finite_pos in H1. apply leb_finite_pos in Hle.
  apply ltb_finite_pos. lia.
Qed.

(** X7. Lowering the threshold never clears a flag: a column that
    [check_mostly_same] flags under a threshold [t] is flagged under every
    threshold [0 < t' <= t], the rounding of [1 - t] and [1 - t'] included. *)
Theorem lower_threshold_flags_more (data : Data) (t t' : F64.t) :
  validated data = true ->
  F64.valid t = true -> F64.valid t' = true ->
  F64.ltb F64.zero t' = true -> F64.leb t' t = true -> F64.ltb t F64.one = true ->
  exists bs bs',
    outcomes (check_mostly_same data t) = Some bs /\
    outcomes (check_mostly_same data t') = Some bs' /\
    Forall2 (fun b b' => b = true -> b' = true) bs bs'.
Proof.
  intros Hd Hv Hv' H0' Hle H1.
  destruct (le_below_one t t' H0' Hle H1) as [Ht Ht'].
  rewrite !outcomes_mostly_same by (try apply valid_thresh_accepted; assumption).
  eexists _, _. split; [reflexivity |]. split; [reflexivity |].
  induction (columns data) as [| s l IH]; cbn [map]; constructor; [| exact IH].
  now apply mostly_same_antitone.
Qed.

Lemma lower_threshold_flags_more_witness :
  exists bs bs',
    outcomes (check_mostly_same (Column (IntSeries I64 (ones_zeros 96 4)))
                (F64.decimal 95 2)) = Some bs /\
    outcomes (check_mostly_same (Column (IntSeries I64 (ones_zeros 96 4)))
                (F64.decimal 9 1)) = Some bs' /\
    Forall2 (fun b b' => b = true -> b' = true) bs bs'.
Proof.
  apply (lower_threshold_flags_more
           (Column (IntSeries I64 (ones_zeros 96 4)))
           (F64.decimal 95 2) (F64.decimal 9 1)); reflexivity.
Defined.

(** X8. [check_mostly_same] presumes values in the range 0..1: a column with a
    row whose values are all at least 1, or all at most 0, is flagged under
    every threshold between 0 and 1, whatever the values are. *)
Theorem one_sided_columns_flagged (data : Data) (thresh : F64.t) :
  validated data = true ->
  well_formed data = true ->
  F64.valid thresh = true ->
  valid_thresh thresh = true ->
  exists bs,
    outcomes (check_mostly_same data thresh) = Some bs /\
    Forall2 (fun s b =>
               size s <> 0%nat ->
               (forall x, In x (numeric s) -> 1 <= x) \/
               (forall x, In x (numeric s) -> x <= 0) ->
               b = true)
            (columns data) bs.
Proof.
  intros Hd Hwf Hv Ht.
  rewrite outcomes_mostly_same by (try apply valid_thresh_accepted; assumption).
  eexists. split; [reflexivity |]. apply Forall2_map_same. intros s Hs Hne Hside.
  unfold validated, well_formed in *. rewrite forallb_forall in Hd, Hwf.
  specialize (Hd s Hs). specialize (Hwf s Hs). cbv beta in Hwf.
  assert (Hnil : numeric s <> []).
  { intros E. apply Hne. rewrite <- numeric_size, E by assumption. reflexivity. }
  apply andb_true_iff in Ht as [H0 H1].
  unfold mostly_same, mean. apply orb_true_iff.
  destruct Hside as [Hge | Hle]; [left | right].
  - pose proof (list_mean_ge_one (numeric s) Hnil Hwf Hge) as Hm.
    destruct (thresh_finite thresh H0 H1) as (mt & et & ->).
    unfold F64.geb, F64.ltb in *. rewrite one_eq in *.
    eapply leb_trans_finite_l; [| exact Hm].
    apply ltb_finite_pos in H1. apply leb_finite_pos. lia.
  - apply leb_signed; [| now apply sub_one_signed].
    now apply list_mean_nonpos.
Qed.

Lemma one_sided_columns_flagged_witness :
  exists bs,
    outcomes (check_mostly_same (Column (IntSeries I64 [2; 3; 5])) default_thresh)
      = Some bs /\
    Forall2 (fun s b =>
               size s <> 0%nat ->
               (forall x, In x (numeric s) -> 1 <= x) \/
               (forall x, In x (numeric s) -> x <= 0) ->
               b = true)
            [IntSeries I64 [2; 3; 5]] bs.
Proof.
  apply (one_sided_columns_flagged (Column (IntSeries I64 [2; 3; 5])) default_thresh);
    reflexivity.
Defined.

(** X9. The mean that [check_mostly_same] reports for a column of zeros and
    ones with a row is a proportion: a float64 between 0.0 and 1.0, both
    included, whatever the rounding of the division. *)
Theorem binary_mean_is_proportion (data : Data) (thresh : F64.t) :
  validated data = true ->
  well_formed data = true ->
  result (utils.validate_thresh thresh) = Return tt ->
  exists ms,
    means (check_mostly_same data thresh) = Some ms /\
    Forall2 (fun s m =>
               size s <> 0%nat ->
               zeros_and_ones (numeric s) = true ->
               F64.leb F64.zero m = true /\ F64.leb m F64.one = true)
            (columns data) ms.
Proof.
  intros Hd Hwf Ht. unfold means.
  rewrite check_mostly_same_run, (validate_thresh_accepts _ Ht), Hd.
  cbn [result snd utils.extra_fields field String.eqb Ascii.eqb Bool.eqb option_map].
  rewrite per_column_values.
  eexists. split; [reflexivity |]. apply Forall2_map_same. intros s Hs Hne H01.
  unfold validated, well_formed in *. rewrite forallb_forall in Hd, Hwf.
  specialize (Hd s Hs). specialize (Hwf s Hs). cbv beta in Hwf.
  apply list_mean_unit_interval; [| now apply int64_bounded_length | assumption].
  intros E. apply Hne. rewrite <- numeric_size, E by assumption. reflexivity.
Qed.

Lemma binary_mean_is_proportion_witness :
  exists ms,
    means (check_mostly_same
             (Frame [("A", IntSeries I64 [0; 1; 1]); ("B", BoolSeries [true])])
             default_thresh) = Some ms /\
    Forall2 (fun s m =>
               size s <> 0%nat ->
               zeros_and_ones (numeric s) = true ->
               F64.leb F64.zero m = true /\ F64.leb m F64.one = true)
            [IntSeries I64 [0; 1; 1]; BoolSeries [true]] ms.
Proof.
  apply (binary_mean_is_proportion
           (Frame [("A", IntSeries I64 [0; 1; 1]); ("B", BoolSeries [true])])
           default_thresh); reflexivity.
Defined.
